(** * RooIgnoreController: access control driven by [.kilocodeignore] files

    A shallow embedding of [src/core/ignore/RooIgnoreController.ts].

    Modelling conventions.
    - A JavaScript string is a [string]; its characters are read as code
      units below 256.  On that range [String.prototype.trim], the regular
      expression class [\s] and [String.prototype.toLowerCase] act character
      by character, as written out below.
    - An exception is a value of [Thrown]; code that may raise returns a
      [result].  [try]/[catch] is a [match] on the result.
    - [console.warn] and [console.error] append to an explicit log.
    - The three external collaborators are kept apart from the controller:
      Node's [path] module (module [Path], POSIX flavour), Node's [fs]
      (record [FileSystem], the state of the disk at the time of a call) and
      the [ignore] package (class [IgnoreLib], an interface; its gitignore
      semantics enters only through the laws of [IgnoreLaws]). *)

From Stdlib Require Import String Ascii List Bool Arith Lia.
Import ListNotations.

Open Scope list_scope.
Open Scope string_scope.

(** ** Exceptions and logging *)

(** The value carried by a JavaScript [throw]: an [Error] object with its
    [message], or any other value, kept as its [String(...)] rendering. *)
Inductive Thrown : Type :=
| ThrownError (message : string)
| ThrownValue (rendering : string).

Inductive result (A : Type) : Type :=
| Ok (a : A)
| Throw (e : Thrown).

Arguments Ok {A} a.
Arguments Throw {A} e.

(** [error instanceof Error ? error.message : String(error)] *)
Definition errorMessage (e : Thrown) : string :=
  match e with
  | ThrownError m => m
  | ThrownValue s => s
  end.

Inductive LogEntry : Type :=
| ConsoleWarn (text : string)
| ConsoleError (text : string)
| ConsoleErrorWith (text : string) (e : Thrown).

(** ** JavaScript string primitives *)

(** The line feed, ["\n"] in the source. *)
Definition newline : string := String "010" "".

Module JS.

(** [s.startsWith(p)] *)
Fixpoint startsWith (s p : string) {struct p} : bool :=
  match p with
  | EmptyString => true
  | String b p' =>
      match s with
      | EmptyString => false
      | String a s' => Ascii.eqb a b && startsWith s' p'
      end
  end.

(** [s.includes(sub)] *)
Fixpoint includes (s sub : string) : bool :=
  startsWith s sub
  || match s with
     | EmptyString => false
     | String _ s' => includes s' sub
     end.

(** WhiteSpace and LineTerminator code units below 256: TAB, LF, VT, FF, CR,
    SP and NBSP.  Both [trim] and [\s] use this set. *)
Definition isWhiteSpace (c : ascii) : bool :=
  let n := nat_of_ascii c in
  ((9 <=? n)%nat && (n <=? 13)%nat) || (n =? 32)%nat || (n =? 160)%nat.

Fixpoint trimStart (s : string) : string :=
  match s with
  | EmptyString => EmptyString
  | String c s' => if isWhiteSpace c then trimStart s' else s
  end.

Fixpoint trimEnd (s : string) : string :=
  match s with
  | EmptyString => EmptyString
  | String c s' =>
      match trimEnd s' with
      | EmptyString => if isWhiteSpace c then EmptyString else String c EmptyString
      | t => String c t
      end
  end.

(** [s.trim()] *)
Definition trim (s : string) : string := trimEnd (trimStart s).

Definition startsWithWhiteSpace (s : string) : bool :=
  match s with
  | EmptyString => false
  | String c _ => isWhiteSpace c
  end.

(** [s.split(/\s+/)]: the pieces between maximal runs of white space.  The
    empty string yields one empty piece; white space at either end yields an
    empty piece there. *)
Fixpoint splitWhiteSpace (s : string) : list string :=
  match s with
  | EmptyString => [EmptyString]
  | String c s' =>
      let r := splitWhiteSpace s' in
      if isWhiteSpace c then
        (if startsWithWhiteSpace s' then r else EmptyString :: r)
      else
        match r with
        | t :: ts => String c t :: ts
        | [] => [String c EmptyString]
        end
  end.

(** [s.split(sep)] for a one-character separator. *)
Fixpoint splitChar (sep : ascii) (s : string) : list string :=
  match s with
  | EmptyString => [EmptyString]
  | String c s' =>
      let r := splitChar sep s' in
      if Ascii.eqb c sep then EmptyString :: r
      else
        match r with
        | t :: ts => String c t :: ts
        | [] => [String c EmptyString]
        end
  end.

(** [c.toLowerCase()] on code units below 256: A-Z, and the Latin-1 capitals
    U+00C0-U+00D6 and U+00D8-U+00DE, move up by 32. *)
Definition lowerChar (c : ascii) : ascii :=
  let n := nat_of_ascii c in
  if ((65 <=? n)%nat && (n <=? 90)%nat)
     || ((192 <=? n)%nat && (n <=? 214)%nat)
     || ((216 <=? n)%nat && (n <=? 222)%nat)
  then ascii_of_nat (n + 32)
  else c.

Fixpoint toLowerCase (s : string) : string :=
  match s with
  | EmptyString => EmptyString
  | String c s' => String (lowerChar c) (toLowerCase s')
  end.

(** [xs.join(sep)] *)
Definition join (sep : string) (xs : list string) : string := String.concat sep xs.

(** [xs.includes(x)] on an array of strings. *)
Definition arrayIncludes (xs : list string) (x : string) : bool :=
  existsb (String.eqb x) xs.

(** Truthiness of a [string | undefined]: [undefined] and the empty string
    are falsy. *)
Definition truthy (v : option string) : bool :=
  match v with
  | None => false
  | Some EmptyString => false
  | Some _ => true
  end.

(** [s.replace(/\\/g, "/")] *)
Fixpoint replaceBackslashes (s : string) : string :=
  match s with
  | EmptyString => EmptyString
  | String c s' =>
      String (if Ascii.eqb c "\" then "/"%char else c) (replaceBackslashes s')
  end.

End JS.

(** ** Node's [path] module, POSIX flavour *)

Module Path.

Definition isAbsolute (p : string) : bool :=
  match p with
  | String "/" _ => true
  | _ => false
  end.

Definition segments (p : string) : list string := JS.splitChar "/" p.

(** [normalizeString]: empty and [.] segments vanish; [..] removes the
    segment before it, and is kept only at the front of a relative path.
    [stack] holds the segments kept so far, last one first. *)
Fixpoint normalizeSegments (allowAboveRoot : bool) (stack segs : list string)
  : list string :=
  match segs with
  | [] => rev stack
  | seg :: rest =>
      if String.eqb seg "" || String.eqb seg "." then
        normalizeSegments allowAboveRoot stack rest
      else if String.eqb seg ".." then
        match stack with
        | top :: below =>
            if String.eqb top ".." then
              normalizeSegments allowAboveRoot
                (if allowAboveRoot then ".." :: stack else stack) rest
            else normalizeSegments allowAboveRoot below rest
        | [] =>
            normalizeSegments allowAboveRoot
              (if allowAboveRoot then [".."] else []) rest
        end
      else normalizeSegments allowAboveRoot (seg :: stack) rest
  end.

Definition normalizeString (p : string) (allowAboveRoot : bool) : string :=
  JS.join "/" (normalizeSegments allowAboveRoot [] (segments p)).

(** The right-to-left scan of [path.resolve]: empty arguments are skipped and
    the scan stops at the first absolute one. *)
Fixpoint resolveScan (argsFromRight : list string) (resolved : string) : string :=
  match argsFromRight with
  | [] => resolved
  | p :: rest =>
      match p with
      | EmptyString => resolveScan rest resolved
      | _ =>
          let resolved' := p ++ "/" ++ resolved in
          if isAbsolute p then resolved' else resolveScan rest resolved'
      end
  end.

(** [path.resolve(...args)]; [processCwd] is [process.cwd()], consulted only
    when no argument is absolute. *)
Definition resolve (processCwd : string) (args : list string) : string :=
  let raw := resolveScan (rev args ++ [processCwd])%list "" in
  let absolute := isAbsolute raw in
  let body := normalizeString raw (negb absolute) in
  if absolute then "/" ++ body
  else match body with EmptyString => "." | _ => body end.

(** The backward scan of [path.dirname] over the characters at indices
    [length - 1] down to [1]: the index of the first slash met after a
    character that is not a slash. *)
Fixpoint dirnameEnd (fromRight : list ascii) (matchedSlash : bool) : option nat :=
  match fromRight with
  | [] => None
  | c :: rest =>
      if Ascii.eqb c "/" then
        (if matchedSlash then dirnameEnd rest true else Some (S (List.length rest)))
      else dirnameEnd rest false
  end.

Definition dirname (p : string) : string :=
  match p with
  | EmptyString => "."
  | String c0 rest =>
      let hasRoot := Ascii.eqb c0 "/" in
      match dirnameEnd (rev (list_ascii_of_string rest)) true with
      | None => if hasRoot then "/" else "."
      | Some e => if hasRoot && (e =? 1)%nat then "//" else String.substring 0 e p
      end
  end.

Definition endsWithSlash (p : string) : bool :=
  match rev (list_ascii_of_string p) with
  | c :: _ => Ascii.eqb c "/"
  | [] => false
  end.

Definition normalize (p : string) : string :=
  match p with
  | EmptyString => "."
  | _ =>
      let absolute := isAbsolute p in
      let trailing := endsWithSlash p in
      match normalizeString p (negb absolute) with
      | EmptyString => if absolute then "/" else if trailing then "./" else "."
      | body =>
          let body' := if trailing then body ++ "/" else body in
          if absolute then "/" ++ body' else body'
      end
  end.

(** [path.join(...args)] *)
Definition join (args : list string) : string :=
  match filter (fun a => negb (String.eqb a "")) args with
  | [] => "."
  | parts => normalize (JS.join "/" parts)
  end.

Fixpoint stripCommon (xs ys : list string) : list string * list string :=
  match xs, ys with
  | x :: xs', y :: ys' => if String.eqb x y then stripCommon xs' ys' else (xs, ys)
  | _, _ => (xs, ys)
  end.

Definition properSegments (p : string) : list string :=
  filter (fun s => negb (String.eqb s "")) (segments p).

(** [path.relative(from, to)]: both ends are resolved, the common leading
    segments dropped, one [..] emitted per segment left in [from]. *)
Definition relative (processCwd from to : string) : string :=
  if String.eqb from to then ""
  else
    let from' := resolve processCwd [from] in
    let to' := resolve processCwd [to] in
    if String.eqb from' to' then ""
    else
      let '(ups, downs) := stripCommon (properSegments from') (properSegments to') in
      JS.join "/" (map (fun _ => "..") ups ++ downs)%list.

End Path.

(** ** [utils/path]: [String.prototype.toPosix] *)

(** Modelled from the spec: [utils/path], which installs [toPosix] on strings,
    is not among the sources.  The spec describes its result as the path
    "normalized to forward-slash separators": every backslash becomes a
    slash. *)
Definition toPosix (p : string) : string := JS.replaceBackslashes p.

(** ** The [ignore] package, at its boundary *)

(** An [Ignore] instance is created empty by [ignore()], fed pattern text by
    [add] and queried by [ignores].  The instance is mutable in the source;
    here [add] returns the updated instance.  Both calls are foreign code and
    may raise. *)
Class IgnoreLib : Type := {
  Ignore : Type;
  ignore : Ignore;
  add : Ignore -> string -> result Ignore;
  ignores : Ignore -> string -> result bool
}.

(** The package's path check ([checkPath]): a queried path must be non-empty
    and must not match [/^\.*\/|^\.+$/], that is, after its leading dots it
    must neither end nor continue with a slash. *)
Fixpoint afterLeadingDots (p : string) : string :=
  match p with
  | String "." p' => afterLeadingDots p'
  | _ => p
  end.

Definition invalidPath (p : string) : bool :=
  match afterLeadingDots p with
  | EmptyString => true
  | String "/" _ => true
  | _ => false
  end.

Definition finalSegment (p : string) : string := last (Path.segments p) "".

Definition IGNORE_FILE_NAME : string := ".kilocodeignore".

Definition SELF_HIDING_RULE : string := "**/.kilocodeignore".

(** What the controller relies on from the package's gitignore semantics. *)
Class IgnoreLaws (L : IgnoreLib) : Prop := {
  (** [ignores] raises on a path that fails the path check. *)
  ignores_invalid :
    forall (m : Ignore) (p : string),
      invalidPath p = true -> exists e, ignores m p = Throw e;
  (** Once [**/.kilocodeignore] is the rule added last, every checked path
      whose final segment is [.kilocodeignore] is ignored. *)
  ignores_self_hiding :
    forall (m m' : Ignore) (p : string),
      add m SELF_HIDING_RULE = Ok m' ->
      invalidPath p = false ->
      finalSegment p = IGNORE_FILE_NAME ->
      ignores m' p = Ok true
}.

(** ** Node's [fs], as seen by the controller *)

Record FileSystem : Type := {
  (** [process.cwd()] *)
  processCwd : string;
  (** [fs.access(p)] resolves *)
  access : string -> bool;
  (** [fs.readFile(p, "utf8")] *)
  readFile : string -> result string;
  (** [fsSync.realpathSync(p)] *)
  realpathSync : string -> result string
}.

(** ** The host's handles *)

(** What [setupFileWatcher] registers with the editor: the three event
    subscriptions and the watcher itself. *)
Inductive Disposable : Type :=
| OnDidChange
| OnDidCreate
| OnDidDelete
| FileWatcher.

Definition Disposable_eqb (a b : Disposable) : bool :=
  match a, b with
  | OnDidChange, OnDidChange
  | OnDidCreate, OnDidCreate
  | OnDidDelete, OnDidDelete
  | FileWatcher, FileWatcher => true
  | _, _ => false
  end.

(** A [NodeJS.Timeout] handle. *)
Definition Timeout : Type := nat.

Section Controller.

Context {L : IgnoreLib}.

(** ** The controller's fields *)

Record RooIgnoreController : Type := {
  cwd : string;
  ignoreInstance : Ignore;
  disposables : list Disposable;
  rooIgnoreContent : option string;
  reloadTimeout : option Timeout
}.

Definition set_ignoreInstance (m : Ignore) (c : RooIgnoreController) :=
  {| cwd := cwd c; ignoreInstance := m; disposables := disposables c;
     rooIgnoreContent := rooIgnoreContent c; reloadTimeout := reloadTimeout c |}.

Definition set_rooIgnoreContent (v : option string) (c : RooIgnoreController) :=
  {| cwd := cwd c; ignoreInstance := ignoreInstance c; disposables := disposables c;
     rooIgnoreContent := v; reloadTimeout := reloadTimeout c |}.

Definition set_disposables (ds : list Disposable) (c : RooIgnoreController) :=
  {| cwd := cwd c; ignoreInstance := ignoreInstance c; disposables := ds;
     rooIgnoreContent := rooIgnoreContent c; reloadTimeout := reloadTimeout c |}.

Definition set_reloadTimeout (t : option Timeout) (c : RooIgnoreController) :=
  {| cwd := cwd c; ignoreInstance := ignoreInstance c; disposables := disposables c;
     rooIgnoreContent := rooIgnoreContent c; reloadTimeout := t |}.

(** ** [findKilocodeIgnoreFiles] *)

(** The guard of the upward walk: [currentPath && currentPath !==
    path.dirname(currentPath)]. *)
Definition walkContinues (currentPath : string) : bool :=
  negb (String.eqb currentPath "")
  && negb (String.eqb currentPath (Path.dirname currentPath)).

(** The [while] loop; the result is [kilocodeIgnoreFiles] in push order,
    start directory first.  [fuel] bounds the number of iterations;
    [walkUp_unfold] shows that the bound used below is never reached. *)
Fixpoint walkUp (fs : FileSystem) (fuel : nat) (currentPath : string) : list string :=
  match fuel with
  | 0 => []
  | S fuel' =>
      if walkContinues currentPath then
        let kilocodeIgnorePath := Path.join [currentPath; IGNORE_FILE_NAME] in
        ((if access fs kilocodeIgnorePath then [kilocodeIgnorePath] else [])
           ++ walkUp fs fuel' (Path.dirname currentPath))%list
      else []
  end.

Definition walkFuel (p : string) : nat := String.length p + 2.

Definition findKilocodeIgnoreFiles (fs : FileSystem) (targetPath : string) : list string :=
  let currentPath := Path.resolve (processCwd fs) [targetPath] in
  rev (walkUp fs (walkFuel currentPath) currentPath).

(** ** [loadRooIgnore] *)

(** The body of the [for] loop for one file, with its own [try]/[catch]: what
    is pushed on [combinedContent], and what is logged. *)
Definition readOne (fs : FileSystem) (cwd : string) (filePath : string)
  : list string * list LogEntry :=
  match readFile fs filePath with
  | Ok content =>
      match JS.trim content with
      | EmptyString => ([], [])
      | _ =>
          let relativePath := Path.relative (processCwd fs) cwd filePath in
          (["# From: " ++ relativePath; content], [])
      end
  | Throw error =>
      let errorMessage := errorMessage error in
      ([], [ConsoleWarn ("Warning: Could not read .kilocodeignore at "
                           ++ filePath ++ ": " ++ errorMessage)])
  end.

(** The [for] loop: [combinedContent] after the loop, and the warnings. *)
Fixpoint readAll (fs : FileSystem) (cwd : string) (files : list string)
  : list string * list LogEntry :=
  match files with
  | [] => ([], [])
  | filePath :: rest =>
      let '(pushed, warned) := readOne fs cwd filePath in
      let '(pushed', warned') := readAll fs cwd rest in
      ((pushed ++ pushed')%list, (warned ++ warned')%list)
  end.

(** The [try] block.  The result is [Ok] when the block runs to its end (or
    to its [return]) and [Throw] when a call raises; in both cases the
    controller is returned as the block left it. *)
Definition loadRooIgnore_try (fs : FileSystem) (this : RooIgnoreController)
  : result unit * RooIgnoreController * list LogEntry :=
  let this := set_ignoreInstance ignore this in
  let kilocodeIgnoreFiles := findKilocodeIgnoreFiles fs (cwd this) in
  match kilocodeIgnoreFiles with
  | [] => (Ok tt, set_rooIgnoreContent None this, [])
  | _ =>
      let '(combinedContent, warned) := readAll fs (cwd this) kilocodeIgnoreFiles in
      match combinedContent with
      | [] => (Ok tt, set_rooIgnoreContent None this, warned)
      | _ =>
          let text := JS.join newline combinedContent in
          let this := set_rooIgnoreContent (Some text) this in
          match add (ignoreInstance this) text with
          | Throw error => (Throw error, this, warned)
          | Ok m1 =>
              let this := set_ignoreInstance m1 this in
              match add (ignoreInstance this) SELF_HIDING_RULE with
              | Throw error => (Throw error, this, warned)
              | Ok m2 => (Ok tt, set_ignoreInstance m2 this, warned)
              end
          end
      end
  end.

(** The [catch] block. *)
Definition loadRooIgnore_catch (error : Thrown) (this : RooIgnoreController)
  : RooIgnoreController * list LogEntry :=
  let errorMessage := errorMessage error in
  (set_ignoreInstance ignore (set_rooIgnoreContent None this),
   [ConsoleError ("Unexpected error loading .kilocodeignore files: " ++ errorMessage)]).

Definition loadRooIgnore (fs : FileSystem) (this : RooIgnoreController)
  : RooIgnoreController * list LogEntry :=
  match loadRooIgnore_try fs this with
  | (Ok _, this', logged) => (this', logged)
  | (Throw error, this', logged) =>
      let '(this'', logged') := loadRooIgnore_catch error this' in
      (this'', (logged ++ logged')%list)
  end.

Definition initialize (fs : FileSystem) (this : RooIgnoreController)
  : RooIgnoreController * list LogEntry :=
  loadRooIgnore fs this.

(** ** [validateAccess] *)

(** [realPath]: the real path behind [filePath], or its absolute form when
    [realpathSync] raises. *)
Definition realPathOf (fs : FileSystem) (this : RooIgnoreController) (filePath : string)
  : string :=
  let absolutePath := Path.resolve (processCwd fs) [cwd this; filePath] in
  match realpathSync fs absolutePath with
  | Ok p => p
  | Throw _ => absolutePath
  end.

(** [relativePath] as first computed: the real path relative to [cwd]. *)
Definition resolvedRelative (fs : FileSystem) (this : RooIgnoreController)
  (filePath : string) : string :=
  toPosix (Path.relative (processCwd fs) (cwd this) (realPathOf fs this filePath)).

(** [relativePath] as handed to the matcher: the original [filePath] stands
    in when the real path leaves the directory. *)
Definition queriedPath (fs : FileSystem) (this : RooIgnoreController) (filePath : string)
  : string :=
  let relativePath := resolvedRelative fs this filePath in
  if JS.startsWith relativePath "../" || Path.isAbsolute relativePath
  then toPosix filePath
  else relativePath.

(** The [try] block of [validateAccess]. *)
Definition validateAccess_try (fs : FileSystem) (this : RooIgnoreController)
  (filePath : string) : result bool :=
  match ignores (ignoreInstance this) (queriedPath fs this filePath) with
  | Ok ignored => Ok (negb ignored)
  | Throw error => Throw error
  end.

Definition validateAccess (fs : FileSystem) (this : RooIgnoreController)
  (filePath : string) : bool :=
  if negb (JS.truthy (rooIgnoreContent this)) then true
  else
    match validateAccess_try fs this filePath with
    | Ok allowed => allowed
    | Throw _ => true
    end.

(** ** [validateCommand] *)

Definition fileReadingCommands : list string :=
  [ "cat"; "less"; "more"; "head"; "tail"; "grep"; "awk"; "sed";
    "get-content"; "gc"; "type"; "select-string"; "sls" ].

(** The [for] loop over [parts[1..]]. *)
Fixpoint scanArguments (fs : FileSystem) (this : RooIgnoreController)
  (args : list string) : option string :=
  match args with
  | [] => None
  | arg :: rest =>
      if JS.startsWith arg "-" || JS.startsWith arg "/" then scanArguments fs this rest
      else if JS.includes arg ":" then scanArguments fs this rest
      else if negb (validateAccess fs this arg) then Some arg
      else scanArguments fs this rest
  end.

Definition validateCommand (fs : FileSystem) (this : RooIgnoreController)
  (command : string) : option string :=
  if negb (JS.truthy (rooIgnoreContent this)) then None
  else
    let parts := JS.splitWhiteSpace (JS.trim command) in
    let baseCommand := JS.toLowerCase (hd "" parts) in
    if JS.arrayIncludes fileReadingCommands baseCommand
    then scanArguments fs this (tl parts)
    else None.

(** ** [filterPaths] *)

(** [paths.map(p => ({path: p, allowed: validate(p)}))]: the callback runs on
    each element in order, and the first exception ends the [map]. *)
Fixpoint mapAllowed (validate : string -> result bool) (paths : list string)
  : result (list (string * bool)) :=
  match paths with
  | [] => Ok []
  | p :: rest =>
      match validate p with
      | Throw e => Throw e
      | Ok allowed =>
          match mapAllowed validate rest with
          | Throw e => Throw e
          | Ok xs => Ok ((p, allowed) :: xs)
          end
      end
  end.

(** [filterPaths] with the method found at [this.validateAccess] as a
    parameter: the call is resolved on the object when it is made, so it
    reaches whatever stands there (the tests put a throwing stub in its
    place). *)
Definition filterPathsWith (validate : string -> result bool) (paths : list string)
  : list string * list LogEntry :=
  match mapAllowed validate paths with
  | Ok xs => (map fst (filter snd xs), [])
  | Throw error => ([], [ConsoleErrorWith "Error filtering paths:" error])
  end.

(** [filterPaths] on a controller whose [validateAccess] is its own. *)
Definition filterPaths (fs : FileSystem) (this : RooIgnoreController)
  (paths : list string) : list string :=
  fst (filterPathsWith (fun p => Ok (validateAccess fs this p)) paths).

(** ** [getInstructions] *)

(** [LOCK_TEXT_SYMBOL], the padlock U+1F512, written as its four UTF-8
    bytes; it is copied into the instructions and never inspected. *)
Definition LOCK_TEXT_SYMBOL : string :=
  String (ascii_of_nat 240) (String (ascii_of_nat 159)
    (String (ascii_of_nat 148) (String (ascii_of_nat 146) ""))).

(** The template of [getInstructions] up to the combined content. *)
Definition instructionsHeader : string :=
  "# .kilocodeignore" ++ newline ++ newline
  ++ "(The following is provided by one or more .kilocodeignore files where the user has specified files and directories that should not be accessed. Multiple files are merged with hierarchical precedence - more specific directories override parent patterns. When using list_files, you'll notice a "
  ++ LOCK_TEXT_SYMBOL
  ++ " next to files that are blocked. Attempting to access the file's contents e.g. through read_file will result in an error.)"
  ++ newline ++ newline.

Definition getInstructions (this : RooIgnoreController) : option string :=
  if negb (JS.truthy (rooIgnoreContent this)) then None
  else
    match rooIgnoreContent this with
    | Some content =>
        Some (instructionsHeader ++ content ++ newline ++ "**/.kilocodeignore")
    | None => None
    end.

(** ** Construction, the watcher, the debounce timer and disposal *)

(** The controller together with the part of the host it talks to: the disk,
    the subscriptions the editor still honours, the timers still armed, the
    next timer handle, the console, and the number of [loadRooIgnore] runs. *)
Record World : Type := {
  controller : RooIgnoreController;
  disk : FileSystem;
  subscribed : list Disposable;
  armed : list Timeout;
  nextTimeout : Timeout;
  console : list LogEntry;
  loads : nat
}.

Definition set_controller (c : RooIgnoreController) (w : World) : World :=
  {| controller := c; disk := disk w; subscribed := subscribed w; armed := armed w;
     nextTimeout := nextTimeout w; console := console w; loads := loads w |}.

(** [setupFileWatcher]: the four handles pushed on [disposables]. *)
Definition setupFileWatcher : list Disposable :=
  ([OnDidChange; OnDidCreate; OnDidDelete] ++ [FileWatcher])%list.

(** [new RooIgnoreController(cwd)] *)
Definition construct (fs : FileSystem) (cwd : string) : World :=
  {| controller :=
       {| cwd := cwd; ignoreInstance := ignore; disposables := setupFileWatcher;
          rooIgnoreContent := None; reloadTimeout := None |};
     disk := fs; subscribed := setupFileWatcher; armed := []; nextTimeout := 0;
     console := []; loads := 0 |}.

(** [clearTimeout(t)] *)
Definition clearTimeout (t : Timeout) (timers : list Timeout) : list Timeout :=
  filter (fun t' => negb (Nat.eqb t' t)) timers.

(** [debouncedReload]: clear the timer held in [reloadTimeout], if any, and
    arm a new one. *)
Definition debouncedReload (w : World) : World :=
  let this := controller w in
  let timers :=
    match reloadTimeout this with
    | Some t => clearTimeout t (armed w)
    | None => armed w
    end in
  let t' := nextTimeout w in
  {| controller := set_reloadTimeout (Some t') this; disk := disk w;
     subscribed := subscribed w; armed := (timers ++ [t'])%list;
     nextTimeout := S t'; console := console w; loads := loads w |}.

(** The callback given to [setTimeout]: it runs [loadRooIgnore]. *)
Definition reloadCallback (w : World) : World :=
  let '(this', logged) := loadRooIgnore (disk w) (controller w) in
  {| controller := this'; disk := disk w; subscribed := subscribed w;
     armed := armed w; nextTimeout := nextTimeout w;
     console := (console w ++ logged)%list; loads := S (loads w) |}.

(** [dispose]: every handle in [disposables] is disposed, and the list
    emptied. *)
Definition dispose (w : World) : World :=
  let this := controller w in
  {| controller := set_disposables [] this; disk := disk w;
     subscribed :=
       filter (fun d => negb (existsb (Disposable_eqb d) (disposables this)))
              (subscribed w);
     armed := armed w; nextTimeout := nextTimeout w;
     console := console w; loads := loads w |}.

(** What can happen to a controller in the host's event loop. *)
Inductive Event : Type :=
(** the caller awaits [initialize()] *)
| CallInitialize
(** an ignore-file under the root changes: the disk becomes [fs'] and the
    editor notifies the listener registered for that kind of change *)
| FileEvent (kind : Disposable) (fs' : FileSystem)
(** the delay of timer [t] elapses *)
| TimerElapses (t : Timeout)
(** the caller calls [dispose()] *)
| CallDispose.

Definition listening (w : World) (kind : Disposable) : bool :=
  existsb (Disposable_eqb kind) (subscribed w)
  && existsb (Disposable_eqb FileWatcher) (subscribed w).

Definition step (w : World) (ev : Event) : World :=
  match ev with
  | CallInitialize =>
      let '(this', logged) := initialize (disk w) (controller w) in
      {| controller := this'; disk := disk w; subscribed := subscribed w;
         armed := armed w; nextTimeout := nextTimeout w;
         console := (console w ++ logged)%list; loads := S (loads w) |}
  | FileEvent kind fs' =>
      let w' :=
        {| controller := controller w; disk := fs'; subscribed := subscribed w;
           armed := armed w; nextTimeout := nextTimeout w;
           console := console w; loads := loads w |} in
      if listening w' kind then debouncedReload w' else w'
  | TimerElapses t =>
      if existsb (Nat.eqb t) (armed w) then
        reloadCallback
          {| controller := controller w; disk := disk w; subscribed := subscribed w;
             armed := clearTimeout t (armed w); nextTimeout := nextTimeout w;
             console := console w; loads := loads w |}
      else w
  | CallDispose => dispose w
  end.

Definition run (w : World) (evs : list Event) : World := fold_left step evs w.

End Controller.

(** ** A small gitignore matcher

    An instance of [IgnoreLib] to run the controller on: patterns are split
    into segments, [*] matches inside a segment and [**] across segments, a
    leading [!] negates, a trailing slash restricts to directories, the last
    matching rule wins, and whatever lies below an ignored directory is
    ignored. *)

Module Gitignore.

Record Rule : Type := {
  negative : bool;
  directoryOnly : bool;
  pattern : list string
}.

(** One segment against one pattern segment; [*] stands for any run of
    characters. *)
Fixpoint globSegment (pat s : string) : bool :=
  match pat with
  | EmptyString => match s with EmptyString => true | _ => false end
  | String "*" pat' =>
      (fix star (s : string) : bool :=
         globSegment pat' s
         || match s with
            | EmptyString => false
            | String _ s' => star s'
            end) s
  | String c pat' =>
      match s with
      | String d s' => Ascii.eqb c d && globSegment pat' s'
      | EmptyString => false
      end
  end.

(** A path against a pattern, segment by segment; a closing [**] stands for
    one segment or more, any other [**] for none or more. *)
Fixpoint globPath (pats segs : list string) {struct pats} : bool :=
  match pats with
  | [] => match segs with [] => true | _ => false end
  | pat :: pats' =>
      if String.eqb pat "**" then
        match pats' with
        | [] => match segs with [] => false | _ => true end
        | _ =>
            (fix any (segs : list string) : bool :=
               globPath pats' segs
               || match segs with
                  | [] => false
                  | _ :: segs' => any segs'
                  end) segs
        end
      else
        match segs with
        | s :: segs' => globSegment pat s && globPath pats' segs'
        | [] => false
        end
  end.

Definition dropLeadingEmpty (segs : list string) : list string :=
  match segs with
  | EmptyString :: rest => rest
  | _ => segs
  end.

Definition dropTrailingEmpty (segs : list string) : list string * bool :=
  match rev segs with
  | EmptyString :: before => (rev before, true)
  | _ => (segs, false)
  end.

(** One line of pattern text; blank lines and [#] comments give no rule. *)
Definition parseLine (line : string) : option Rule :=
  let line := JS.trim line in
  match line with
  | EmptyString => None
  | String "#" _ => None
  | _ =>
      let '(neg, body) :=
        match line with
        | String "!" rest => (true, rest)
        | _ => (false, line)
        end in
      let '(segs, dirOnly) := dropTrailingEmpty (Path.segments body) in
      match segs with
      | [] => None
      | [name] => Some {| negative := neg; directoryOnly := dirOnly;
                          pattern := ["**"; name] |}
      | _ => Some {| negative := neg; directoryOnly := dirOnly;
                     pattern := dropLeadingEmpty segs |}
      end
  end.

Fixpoint parseLines (lines : list string) : list Rule :=
  match lines with
  | [] => []
  | line :: rest =>
      match parseLine line with
      | Some r => r :: parseLines rest
      | None => parseLines rest
      end
  end.

Definition parse (text : string) : list Rule :=
  parseLines (JS.splitChar "010" text).

Definition ruleMatches (r : Rule) (segs : list string) (isDirectory : bool) : bool :=
  (negb (directoryOnly r) || isDirectory) && globPath (pattern r) segs.

(** The verdict of the rules on one path: the last matching rule decides. *)
Definition verdict (rules : list Rule) (segs : list string) (isDirectory : bool) : bool :=
  fold_left
    (fun ignored r => if ruleMatches r segs isDirectory then negb (negative r) else ignored)
    rules false.

(** The verdicts on the directories above the path, outermost first, then on
    the path itself. *)
Fixpoint ignoredAlong (rules : list Rule) (above rest : list string)
  (isDirectory : bool) : bool :=
  match rest with
  | [] => false
  | s :: rest' =>
      let here := (above ++ [s])%list in
      match rest' with
      | [] => verdict rules here isDirectory
      | _ => verdict rules here true || ignoredAlong rules here rest' isDirectory
      end
  end.

Definition ignoresPath (rules : list Rule) (p : string) : result bool :=
  if invalidPath p then
    Throw (ThrownError ("path should be a `path.relative()`d string, but got " ++ p))
  else
    let '(segs, isDirectory) := dropTrailingEmpty (Path.segments p) in
    Ok (ignoredAlong rules [] segs isDirectory).

#[export] Instance lib : IgnoreLib := {|
  Ignore := list Rule;
  ignore := [];
  add := fun m text => Ok (m ++ parse text)%list;
  ignores := ignoresPath
|}.

End Gitignore.

(** A build of the package whose [add] rejects every pattern text; [ignores]
    matches nothing. *)
Module Rejecting.

#[export] Instance lib : IgnoreLib := {|
  Ignore := unit;
  ignore := tt;
  add := fun _ _ => Throw (ThrownError "Invalid regular expression");
  ignores := fun _ _ => Ok false
|}.

End Rejecting.

(** ** A disk in memory *)

Module Disk.

Fixpoint lookup {A : Type} (k : string) (kvs : list (string * A)) : option A :=
  match kvs with
  | [] => None
  | (k', v) :: rest => if String.eqb k k' then Some v else lookup k rest
  end.

Definition ENOENT : Thrown := ThrownError "ENOENT: no such file or directory".

(** [files] can be read, [broken] exist but fail to read with the given
    exception, [links] are symbolic links with the real path they lead to. *)
Definition make (processCwd : string) (files : list (string * string))
  (broken : list (string * Thrown)) (links : list (string * string)) : FileSystem :=
  {| processCwd := processCwd;
     access := fun p =>
       match lookup p files, lookup p broken with
       | None, None => false
       | _, _ => true
       end;
     readFile := fun p =>
       match lookup p broken with
       | Some e => Throw e
       | None =>
           match lookup p files with
           | Some content => Ok content
           | None => Throw ENOENT
           end
       end;
     realpathSync := fun p =>
       match lookup p links with
       | Some target => Ok target
       | None =>
           match lookup p files with
           | Some _ => Ok p
           | None => Throw ENOENT
           end
       end |}.

End Disk.

(** ** Notions used to state the properties *)

(** The ignore-file of a directory. *)
Definition ignoreFileIn (dir : string) : string := Path.join [dir; IGNORE_FILE_NAME].

(** The directories visited by the upward walk from [dir]: [dir], its
    parent, and so on, up to and excluding the first one that is its own
    parent. *)
Fixpoint ancestorsUpTo (fuel : nat) (dir : string) : list string :=
  match fuel with
  | 0 => []
  | S fuel' =>
      if walkContinues dir then dir :: ancestorsUpTo fuel' (Path.dirname dir) else []
  end.

Definition ancestors (dir : string) : list string := ancestorsUpTo (walkFuel dir) dir.

(** A measure that each step of the walk decreases. *)
Definition walkMeasure (p : string) : nat :=
  if String.eqb p "." then 1 else String.length p + 2.

(** What one discovered file adds to the combined buffer: its provenance
    line and its raw content when it reads as something other than white
    space, nothing otherwise. *)
Definition contribution (fs : FileSystem) (cwd filePath : string) : list string :=
  match readFile fs filePath with
  | Ok content =>
      if String.eqb (JS.trim content) "" then []
      else ["# From: " ++ Path.relative (processCwd fs) cwd filePath; content]
  | Throw _ => []
  end.

(** The combined content for a buffer: [undefined] for the empty buffer, its
    lines joined by newlines otherwise. *)
Definition combinedText (buffer : list string) : option string :=
  match buffer with
  | [] => None
  | _ => Some (JS.join newline buffer)
  end.

(** The warning for a file that could not be read. *)
Definition readWarning (filePath : string) (error : Thrown) : LogEntry :=
  ConsoleWarn ("Warning: Could not read .kilocodeignore at "
                 ++ filePath ++ ": " ++ errorMessage error).

(** The warnings of one discovered file. *)
Definition readWarnings (fs : FileSystem) (filePath : string) : list LogEntry :=
  match readFile fs filePath with
  | Ok _ => []
  | Throw error => [readWarning filePath error]
  end.

(** The error logged by the [catch] block of the load. *)
Definition loadError (error : Thrown) : LogEntry :=
  ConsoleError ("Unexpected error loading .kilocodeignore files: " ++ errorMessage error).

(** A token the command scan passes over: a flag or a named parameter. *)
Definition skippedToken (arg : string) : bool :=
  JS.startsWith arg "-" || JS.startsWith arg "/" || JS.includes arg ":".

Definition startsWithNonWhite (s : string) : bool :=
  match s with
  | EmptyString => false
  | String c _ => negb (JS.isWhiteSpace c)
  end.

(** The tokens of a command: its maximal runs of characters other than
    white space, from left to right. *)
Fixpoint tokens (s : string) : list string :=
  match s with
  | EmptyString => []
  | String c s' =>
      if JS.isWhiteSpace c then tokens s'
      else if startsWithNonWhite s' then
        match tokens s' with
        | t :: ts => String c t :: ts
        | [] => [String c EmptyString]
        end
      else String c EmptyString :: tokens s'
  end.

Definition nonEmpty (s : string) : bool := negb (String.eqb s "").

Fixpoint noWhiteSpace (s : string) : bool :=
  match s with
  | EmptyString => true
  | String c s' => negb (JS.isWhiteSpace c) && noWhiteSpace s'
  end.

Fixpoint endsWithWhiteSpace (s : string) : bool :=
  match s with
  | EmptyString => false
  | String c EmptyString => JS.isWhiteSpace c
  | String _ s' => endsWithWhiteSpace s'
  end.

(** [t] stands in [s] at an argument position: it is not empty, holds no
    white space, has white space right before it, and the end of [s] or
    white space right after it. *)
Definition argumentTokenOf (s t : string) : Prop :=
  t <> "" /\ noWhiteSpace t = true /\
  exists before after,
    s = before ++ t ++ after /\
    endsWithWhiteSpace before = true /\
    (after = "" \/ JS.startsWithWhiteSpace after = true).

(** A root-relative path that leaves the root. *)
Definition escapesRoot (relativePath : string) : bool :=
  String.eqb relativePath ".."
  || JS.startsWith relativePath "../"
  || Path.isAbsolute relativePath.

(** The root-relative form of a candidate path by its spelling alone, no
    link followed. *)
Definition spelledRelative (fs : FileSystem) (cwd filePath : string) : string :=
  toPosix (Path.relative (processCwd fs) cwd
             (Path.resolve (processCwd fs) [cwd; filePath])).

(** ** Scenarios *)

Module Scenario.

(** A workspace at [/workspace] whose ignore-file hides [secrets]. *)
Definition secretsDisk : FileSystem :=
  Disk.make "/" [("/workspace/.kilocodeignore", "secrets/**")] [] [].

(** The same workspace after the ignore-file has been rewritten. *)
Definition rewrittenDisk : FileSystem :=
  Disk.make "/" [("/workspace/.kilocodeignore", "build/")] [] [].

(** A link from outside the workspace to a file inside it. *)
Definition linkedInDisk : FileSystem :=
  Disk.make "/"
    [("/workspace/.kilocodeignore", "secrets/**");
     ("/workspace/secrets/keys.json", "{}")]
    []
    [("/outside/link", "/workspace/secrets/keys.json")].

(** An ignore-file that is a link to a file of another name. *)
Definition linkedIgnoreFileDisk : FileSystem :=
  Disk.make "/"
    [("/workspace/.kilocodeignore", "secrets/**");
     ("/workspace/shared.rules", "secrets/**")]
    []
    [("/workspace/.kilocodeignore", "/workspace/shared.rules")].

(** A workspace reached through a linked directory: [/tmp] is a link to
    [/private/tmp], so every real path leaves the root [/tmp/ws]. *)
Definition aliasedDisk : FileSystem :=
  Disk.make "/"
    [("/tmp/ws/.kilocodeignore", "secrets/**")]
    []
    [("/tmp/ws/.kilocodeignore", "/private/tmp/ws/.kilocodeignore");
     ("/tmp/ws/src/.kilocodeignore", "/private/tmp/ws/src/.kilocodeignore")].

(** Ignore-files at two levels; the upper one cannot be read. *)
Definition brokenParentDisk : FileSystem :=
  Disk.make "/"
    [("/test/path/.kilocodeignore", "node_modules")]
    [("/test/.kilocodeignore", ThrownError "Permission denied")]
    [].

(** Ignore-files at two levels, and one at the filesystem root. *)
Definition nestedDisk : FileSystem :=
  Disk.make "/"
    [("/test/path/.kilocodeignore", "*.log");
     ("/test/.kilocodeignore", "   ");
     ("/.kilocodeignore", "never")]
    [] [].

Definition emptyDisk : FileSystem := Disk.make "/" [] [] [].

(** An ignore-file that holds white space only. *)
Definition blankDisk : FileSystem :=
  Disk.make "/" [("/workspace/.kilocodeignore", "   ")] [] [].

(** The disk of the repository's unit tests: one ignore-file in
    [/test/path], and [config.json] a link to an ignored file. *)
Definition testDisk : FileSystem :=
  Disk.make "/"
    [("/test/path/.kilocodeignore",
      "node_modules" ++ newline ++ ".git" ++ newline ++ "secrets/**" ++ newline
        ++ "*.log" ++ newline ++ "private/")]
    []
    [("/test/path/config.json", "/test/path/node_modules/package.json")].

(** The disk of the directory-walking tests: ignore-files at two levels. *)
Definition twoLevelDisk : FileSystem :=
  Disk.make "/"
    [("/test/.kilocodeignore", "node_modules" ++ newline ++ ".git" ++ newline ++ "*.log");
     ("/test/path/.kilocodeignore", "build/" ++ newline ++ "dist/" ++ newline ++ "temp/")]
    [] [].

(** A controller built on a disk and loaded from it, with the small matcher. *)
Definition loaded (fs : FileSystem) (cwd : string)
  : @RooIgnoreController Gitignore.lib :=
  fst (loadRooIgnore fs (controller (construct fs cwd))).

(** The same with the build of the package that rejects pattern text. *)
Definition unloaded (fs : FileSystem) (cwd : string)
  : @RooIgnoreController Rejecting.lib :=
  controller (construct fs cwd).

(** A throwing stub in the place of [validateAccess]. *)
Definition throwingStub (p : string) : result bool :=
  Throw (ThrownError "Test error").

(** A running controller: built on [secretsDisk] and initialised. *)
Definition running : @World Gitignore.lib :=
  run (construct secretsDisk "/workspace") [CallInitialize].

(** The ignore-file changes and, before the debounce delay is over, the
    caller disposes of the controller. *)
Definition disposedWhilePending : @World Gitignore.lib :=
  run running [FileEvent OnDidChange rewrittenDisk; CallDispose].

(** Then the delay elapses. *)
Definition afterTheDelay : @World Gitignore.lib :=
  step disposedWhilePending (TimerElapses 0).

End Scenario.

(** ** Further notions *)

Section FurtherNotions.

Context {L : IgnoreLib}.

(** What a load leaves in [rooIgnoreContent] and [ignoreInstance] and what
    it logs, as a function of the disk and of [cwd] alone. *)
Definition loadResult (fs : FileSystem) (cwd : string)
  : option string * Ignore * list LogEntry :=
  let files := findKilocodeIgnoreFiles fs cwd in
  let buffer := flat_map (contribution fs cwd) files in
  let warned := flat_map (readWarnings fs) files in
  match buffer with
  | [] => (None, ignore, warned)
  | _ =>
      let text := JS.join newline buffer in
      match add ignore text with
      | Throw e => (None, ignore, (warned ++ [loadError e])%list)
      | Ok m1 =>
          match add m1 SELF_HIDING_RULE with
          | Throw e => (None, ignore, (warned ++ [loadError e])%list)
          | Ok m2 => (Some text, m2, warned)
          end
      end
  end.

(** At most one timer is armed, and it is the one held in [reloadTimeout]. *)
Definition timerInvariant (w : World) : Prop :=
  armed w = [] \/ exists t, reloadTimeout (controller w) = Some t /\ armed w = [t].

(** Every live subscription is held in [disposables]. *)
Definition subscriptionsHeld (w : World) : Prop :=
  forall d, In d (subscribed w) -> In d (disposables (controller w)).

(** A burst of change notifications, each with the disk it leaves. *)
Definition fileEvents (burst : list (Disposable * FileSystem)) : list Event :=
  map (fun kf => FileEvent (fst kf) (snd kf)) burst.

Definition isCallInitialize (ev : Event) : bool :=
  match ev with
  | CallInitialize => true
  | _ => false
  end.

(** The events that can lead to a load: calls of [initialize] and change
    notifications. *)
Definition isTrigger (ev : Event) : bool :=
  match ev with
  | CallInitialize | FileEvent _ _ => true
  | _ => false
  end.

End FurtherNotions.

(** ** [test-llm-autocompletion/strategy-tester.ts] *)

Module StrategyTester.

(** [s.indexOf(sub)]; [None] stands for [-1]. *)
Fixpoint indexOf (s sub : string) : option nat :=
  if JS.startsWith s sub then Some 0
  else
    match s with
    | EmptyString => None
    | String _ s' => option_map S (indexOf s' sub)
    end.

Fixpoint drop (n : nat) (s : string) : string :=
  match n, s with
  | S n', String _ s' => drop n' s'
  | _, _ => s
  end.

(** [s.replace(sub, "")] for a string [sub]: the first occurrence goes. *)
Fixpoint removeFirst (s sub : string) : string :=
  if JS.startsWith s sub then drop (String.length sub) s
  else
    match s with
    | EmptyString => EmptyString
    | String c s' => String c (removeFirst s' sub)
    end.

(** What [createContext] builds that depends on its input: the text of the
    document and the position both ends of the range stand at. *)
Record Context : Type := {
  documentText : string;
  cursorLine : nat;
  cursorCharacter : nat
}.

Section WithMarker.

(** [CURSOR_MARKER] of [services/ghost/ghostConstants], which is not among
    the sources. *)
Variable CURSOR_MARKER : string.

(** The [for] loop of [createContext] from line [i] on: the first line that
    holds the marker, and where; [(0, 0)] when there is none. *)
Fixpoint findMarker (lines : list string) (i : nat) : nat * nat :=
  match lines with
  | [] => (0, 0)
  | line :: rest =>
      match indexOf line CURSOR_MARKER with
      | Some markerIndex => (i, markerIndex)
      | None => findMarker rest (S i)
      end
  end.

(** The same search, telling a marker found at the very start from no
    marker at all. *)
Fixpoint findMarkerOpt (lines : list string) (i : nat) : option (nat * nat) :=
  match lines with
  | [] => None
  | line :: rest =>
      match indexOf line CURSOR_MARKER with
      | Some markerIndex => Some (i, markerIndex)
      | None => findMarkerOpt rest (S i)
      end
  end.

Definition createContext (code : string) : Context :=
  let lines := JS.splitChar "010" code in
  let '(cursorLine, cursorCharacter) := findMarker lines 0 in
  let codeWithoutMarker := removeFirst code CURSOR_MARKER in
  {| documentText := codeWithoutMarker;
     cursorLine := cursorLine;
     cursorCharacter := cursorCharacter |}.

End WithMarker.

(** [parseCompletion].  [hasSuggestions] stands for the foreign calls of the
    [try] block up to [result.suggestions.hasSuggestions()]: building the
    parser and the mock document, [initialize], [parseResponse]; any of them
    may raise.  The second component holds what [console.warn] is given. *)
Definition parseCompletion (hasSuggestions : string -> string -> result bool)
  (originalContent xmlResponse : string) : option string * list Thrown :=
  let attempt : result (option string) :=
    match hasSuggestions originalContent xmlResponse with
    | Throw error => Throw error
    | Ok found =>
        if negb found then Ok None
        else Throw (ThrownError "Code needs to be ported to FIM style completion")
    end in
  match attempt with
  | Ok r => (r, [])
  | Throw error => (None, [error])
  end.

Definition getSelectedStrategyName (code : string) : string := "auto-trigger".

(** The line and the column at which a text ends: the number of its line
    feeds, and the length of what follows the last of them. *)
Definition endPosition (s : string) : nat * nat :=
  let lines := JS.splitChar "010" s in
  (List.length lines - 1, String.length (last lines "")).

Fixpoint noLineFeed (s : string) : bool :=
  match s with
  | EmptyString => true
  | String c s' => negb (Ascii.eqb c "010") && noLineFeed s'
  end.

End StrategyTester.

(** ** Further scenarios *)

Module Cases.

(** The controller of [Scenario.secretsDisk] before its first load. *)
Definition fresh : @RooIgnoreController Gitignore.lib :=
  controller (construct Scenario.secretsDisk "/workspace").

(** A controller at the root of [Scenario.nestedDisk], which holds
    [/.kilocodeignore]. *)
Definition atRoot : @RooIgnoreController Gitignore.lib :=
  controller (construct Scenario.nestedDisk "/").

(** Three notifications in a row: the ignore-file is deleted, created again
    and changed. *)
Definition saveBurst : list (Disposable * FileSystem) :=
  [(OnDidDelete, Scenario.emptyDisk); (OnDidCreate, Scenario.rewrittenDisk)].

(** A running controller with a reload pending. *)
Definition pending : @World Gitignore.lib :=
  step Scenario.running (FileEvent OnDidChange Scenario.rewrittenDisk).

(** What happens after its disposal: the ignore-file changes twice and the
    timer elapses. *)
Definition afterDisposal : list (@Event) :=
  [FileEvent OnDidChange Scenario.secretsDisk; TimerElapses 0;
   FileEvent OnDidCreate Scenario.rewrittenDisk; TimerElapses 0; TimerElapses 1].

Definition marker : string := "<CURSOR>".

Definition markedCode : string :=
  "let a = 1" ++ newline ++ "let b = <CURSOR>a" ++ newline ++ "<CURSOR>".

End Cases.

(** * Properties *)

(** ** Strings *)

Lemma splitWhiteSpace_not_nil (s : string) : JS.splitWhiteSpace s <> [].
Proof.
  destruct s as [|c s']; simpl; [discriminate|].
  destruct (JS.isWhiteSpace c).
  - destruct (JS.startsWithWhiteSpace s'); [|discriminate].
    clear c. induction s' as [|d s'' IH]; simpl; [discriminate|].
    destruct (JS.isWhiteSpace d).
    + destruct (JS.startsWithWhiteSpace s''); [exact IH|discriminate].
    + destruct (JS.splitWhiteSpace s''); discriminate.
  - destruct (JS.splitWhiteSpace s'); discriminate.
Qed.

Lemma endsWithWhiteSpace_cons (c : ascii) (s : string) :
  endsWithWhiteSpace s = true -> endsWithWhiteSpace (String c s) = true.
Proof. destruct s; simpl; [discriminate|auto]. Qed.

(** The first piece of a split is the longest prefix free of white space. *)
Lemma splitWhiteSpace_head (s t0 : string) (ts : list string) :
  JS.splitWhiteSpace s = t0 :: ts ->
  noWhiteSpace t0 = true /\
  exists after, s = t0 ++ after /\ (after = "" \/ JS.startsWithWhiteSpace after = true).
Proof.
  revert t0 ts. induction s as [|c s' IH]; intros t0 ts H; simpl in H.
  - inversion H; subst. split; [reflexivity|]. exists "". auto.
  - destruct (JS.isWhiteSpace c) eqn:Hc.
    + assert (t0 = "") as ->.
      { destruct (JS.startsWithWhiteSpace s') eqn:Hs'.
        - destruct (IH _ _ H) as (Hn & after & Heq & _).
          destruct t0 as [|d t0']; [reflexivity|].
          rewrite Heq in Hs'. simpl in Hs', Hn.
          rewrite Hs' in Hn. discriminate.
        - now inversion H. }
      split; [reflexivity|]. exists (String c s'). split; [reflexivity|].
      right. exact Hc.
    + destruct (JS.splitWhiteSpace s') as [|u us] eqn:Hr.
      * now destruct (splitWhiteSpace_not_nil s').
      * inversion H; subst. destruct (IH _ _ eq_refl) as (Hn & after & Heq & Hafter).
        split; [simpl; now rewrite Hc|].
        exists after. split; [simpl; now rewrite <- Heq|exact Hafter].
Qed.

(** Every later piece has white space right before it. *)
Lemma splitWhiteSpace_tail (s t : string) :
  In t (tl (JS.splitWhiteSpace s)) ->
  noWhiteSpace t = true /\
  exists before after,
    s = before ++ t ++ after /\
    endsWithWhiteSpace before = true /\
    (after = "" \/ JS.startsWithWhiteSpace after = true).
Proof.
  induction s as [|c s' IH]; simpl; [tauto|].
  destruct (JS.splitWhiteSpace s') as [|u us] eqn:Hr.
  { now destruct (splitWhiteSpace_not_nil s'). }
  assert (Hlater : In t us ->
            noWhiteSpace t = true /\
            exists before after,
              String c s' = before ++ t ++ after /\
              endsWithWhiteSpace before = true /\
              (after = "" \/ JS.startsWithWhiteSpace after = true)).
  { intros Hin. destruct (IH Hin) as (Hn & before & after & Heq & Hb & Ha).
    split; [exact Hn|]. exists (String c before), after.
    split; [simpl; now rewrite <- Heq|].
    split; [now apply endsWithWhiteSpace_cons|exact Ha]. }
  destruct (JS.isWhiteSpace c) eqn:Hc.
  - destruct (JS.startsWithWhiteSpace s'); simpl; [exact Hlater|].
    intros [<-|Hin]; [|now apply Hlater].
    destruct (splitWhiteSpace_head _ _ _ Hr) as (Hn & after & Heq & Ha).
    split; [exact Hn|]. exists (String c ""), after.
    split; [simpl; now rewrite <- Heq|]. split; [exact Hc|exact Ha].
  - simpl. exact Hlater.
Qed.

(** An empty later piece arises only from white space at the end. *)
Lemma splitWhiteSpace_empty_piece (s : string) :
  In "" (tl (JS.splitWhiteSpace s)) -> endsWithWhiteSpace s = true.
Proof.
  induction s as [|c s' IH]; simpl; [tauto|].
  destruct (JS.splitWhiteSpace s') as [|u us] eqn:Hr.
  { now destruct (splitWhiteSpace_not_nil s'). }
  simpl in IH.
  destruct (JS.isWhiteSpace c) eqn:Hc.
  - destruct (JS.startsWithWhiteSpace s') eqn:Hs'; simpl.
    + intros Hin. destruct s'; [discriminate|]. now apply IH.
    + intros [->|Hin].
      * destruct (splitWhiteSpace_head _ _ _ Hr) as (_ & after & Heq & Ha).
        simpl in Heq. subst after.
        destruct Ha as [->|Ha]; [reflexivity|congruence].
      * destruct s'; [simpl in Hr; inversion Hr; subst; contradiction|]. now apply IH.
  - simpl. intros Hin.
    destruct s'; [simpl in Hr; inversion Hr; subst; contradiction|]. now apply IH.
Qed.

Lemma trimEnd_no_trailing (s : string) : endsWithWhiteSpace (JS.trimEnd s) = false.
Proof.
  induction s as [|c s' IH]; simpl; [reflexivity|].
  destruct (JS.trimEnd s') as [|d t'] eqn:Ht.
  - destruct (JS.isWhiteSpace c) eqn:Hc; simpl; [reflexivity|exact Hc].
  - exact IH.
Qed.

Lemma trim_no_trailing (s : string) : endsWithWhiteSpace (JS.trim s) = false.
Proof. apply trimEnd_no_trailing. Qed.

(** The pieces of a trimmed command after the first are argument tokens. *)
Lemma argument_tokens (command t : string) :
  In t (tl (JS.splitWhiteSpace (JS.trim command))) ->
  argumentTokenOf (JS.trim command) t.
Proof.
  intros Hin. destruct (splitWhiteSpace_tail _ _ Hin) as (Hn & Hsub).
  split; [|split; assumption].
  intros ->. apply splitWhiteSpace_empty_piece in Hin.
  rewrite trim_no_trailing in Hin. discriminate.
Qed.

(** *** The pieces of the trimmed command are its tokens *)

Lemma splitWhiteSpace_head_empty (s : string) (ts : list string) :
  JS.splitWhiteSpace s = "" :: ts -> startsWithNonWhite s = false.
Proof.
  intros H. destruct (splitWhiteSpace_head _ _ _ H) as (_ & after & Heq & Ha).
  simpl in Heq. subst after. destruct Ha as [->|Ha]; [reflexivity|].
  destruct s as [|c s']; [reflexivity|]. simpl in *. now rewrite Ha.
Qed.

Lemma splitWhiteSpace_head_nonempty (s : string) (c : ascii) (t : string)
  (ts : list string) :
  JS.splitWhiteSpace s = String c t :: ts -> startsWithNonWhite s = true.
Proof.
  intros H. destruct (splitWhiteSpace_head _ _ _ H) as (Hn & after & Heq & _).
  subst s. simpl in *. now apply andb_prop in Hn as [-> _].
Qed.

Lemma tokens_filter (s : string) :
  tokens s = filter nonEmpty (JS.splitWhiteSpace s).
Proof.
  induction s as [|c s' IH]; [reflexivity|].
  cbn [tokens JS.splitWhiteSpace].
  destruct (JS.splitWhiteSpace s') as [|t0 ts] eqn:Hr.
  { now destruct (splitWhiteSpace_not_nil s'). }
  destruct (JS.isWhiteSpace c).
  - rewrite IH. now destruct (JS.startsWithWhiteSpace s').
  - destruct t0 as [|d t0'].
    + rewrite (splitWhiteSpace_head_empty _ _ Hr), IH. reflexivity.
    + rewrite (splitWhiteSpace_head_nonempty _ _ _ _ Hr), IH. reflexivity.
Qed.

Lemma startsWithWhiteSpace_nonWhite (s : string) :
  s <> "" -> JS.startsWithWhiteSpace s = false -> startsWithNonWhite s = true.
Proof. destruct s as [|c s']; [congruence|]. simpl. now intros _ ->. Qed.

(** A string with no white space at either end splits into its tokens. *)
Lemma splitWhiteSpace_tokens (s : string) :
  s <> "" -> JS.startsWithWhiteSpace s = false -> endsWithWhiteSpace s = false ->
  JS.splitWhiteSpace s = tokens s.
Proof.
  intros Hne Hstart Hend. rewrite tokens_filter.
  destruct (JS.splitWhiteSpace s) as [|t0 ts] eqn:Hr.
  { now destruct (splitWhiteSpace_not_nil s). }
  assert (t0 <> "") as Ht0.
  { intros ->. apply splitWhiteSpace_head_empty in Hr.
    rewrite (startsWithWhiteSpace_nonWhite s Hne Hstart) in Hr. discriminate. }
  assert (~ In "" ts) as Hts.
  { intros Hin. pose proof (splitWhiteSpace_empty_piece s) as He.
    rewrite Hr in He. apply He in Hin. congruence. }
  cbn [filter]. unfold nonEmpty at 1.
  destruct (String.eqb_spec t0 ""); [contradiction|]. cbn [negb]. f_equal.
  clear Hr. induction ts as [|t ts' IH]; [reflexivity|].
  cbn [filter]. unfold nonEmpty at 1.
  destruct (String.eqb_spec t ""); cbn [negb].
  - subst. destruct Hts. now left.
  - f_equal. apply IH. intros Hin. apply Hts. now right.
Qed.

Lemma tokens_trimStart (s : string) : tokens (JS.trimStart s) = tokens s.
Proof.
  induction s as [|c s' IH]; [reflexivity|].
  simpl. destruct (JS.isWhiteSpace c) eqn:Hc; [exact IH|].
  simpl. now rewrite Hc.
Qed.

Lemma trimStart_no_leading (s : string) :
  JS.startsWithWhiteSpace (JS.trimStart s) = false.
Proof.
  induction s as [|c s' IH]; [reflexivity|].
  simpl. destruct (JS.isWhiteSpace c) eqn:Hc; [exact IH|]. simpl. exact Hc.
Qed.

Lemma trimEnd_empty (s : string) :
  JS.trimEnd s = "" -> tokens s = [] /\ startsWithNonWhite s = false.
Proof.
  induction s as [|c s' IH]; [now split|].
  simpl. destruct (JS.trimEnd s') as [|d t'] eqn:Ht; [|discriminate].
  destruct (JS.isWhiteSpace c); [|discriminate].
  intros _. split; [now apply IH|reflexivity].
Qed.

Lemma trimEnd_head (c : ascii) (s : string) :
  JS.trimEnd (String c s) = "" \/ exists t, JS.trimEnd (String c s) = String c t.
Proof.
  simpl. destruct (JS.trimEnd s) as [|d t'].
  - destruct (JS.isWhiteSpace c); [now left|right; eauto].
  - right. eauto.
Qed.

Lemma trimEnd_starts (s : string) :
  JS.trimEnd s <> "" ->
  startsWithNonWhite (JS.trimEnd s) = startsWithNonWhite s /\
  JS.startsWithWhiteSpace (JS.trimEnd s) = JS.startsWithWhiteSpace s.
Proof.
  destruct s as [|c s']; [now split|].
  intros Hne. destruct (trimEnd_head c s') as [H|[t H]]; [contradiction|].
  rewrite H. now split.
Qed.

Lemma tokens_cons (c : ascii) (s : string) :
  tokens (String c s) =
  if JS.isWhiteSpace c then tokens s
  else if startsWithNonWhite s then
    match tokens s with
    | t :: ts => String c t :: ts
    | [] => [String c EmptyString]
    end
  else String c EmptyString :: tokens s.
Proof. reflexivity. Qed.

Lemma tokens_trimEnd (s : string) : tokens (JS.trimEnd s) = tokens s.
Proof.
  induction s as [|c s' IH]; [reflexivity|].
  cbn [JS.trimEnd].
  destruct (JS.trimEnd s') as [|d t'] eqn:Ht.
  - destruct (trimEnd_empty s' Ht) as [Hnil Hstart].
    cbn [tokens]. rewrite Hnil, Hstart.
    destruct (JS.isWhiteSpace c) eqn:Hc; [reflexivity|].
    cbn [tokens]. now rewrite Hc.
  - assert (JS.trimEnd s' <> "") as Hne by (rewrite Ht; discriminate).
    destruct (trimEnd_starts s' Hne) as [Hstart _]. rewrite Ht in Hstart.
    rewrite (tokens_cons c (String d t')), (tokens_cons c s').
    now rewrite Hstart, IH.
Qed.

Lemma tokens_trim (s : string) : tokens (JS.trim s) = tokens s.
Proof. unfold JS.trim. now rewrite tokens_trimEnd, tokens_trimStart. Qed.

Lemma trim_no_leading (s : string) : JS.startsWithWhiteSpace (JS.trim s) = false.
Proof.
  unfold JS.trim. destruct (JS.trimEnd (JS.trimStart s)) as [|c t] eqn:Ht; [reflexivity|].
  rewrite <- Ht.
  assert (JS.trimEnd (JS.trimStart s) <> "") as Hne by (rewrite Ht; discriminate).
  destruct (trimEnd_starts _ Hne) as [_ ->]. apply trimStart_no_leading.
Qed.

(** [command.trim().split(/\s+/)] is the list of the tokens of [command],
    or one empty piece when there is no token. *)
Lemma parts_tokens (command : string) :
  JS.splitWhiteSpace (JS.trim command) =
  match tokens command with
  | [] => [""]
  | ts => ts
  end.
Proof.
  rewrite <- (tokens_trim command).
  destruct (JS.trim command) as [|c t] eqn:Ht; [reflexivity|].
  rewrite <- Ht.
  rewrite splitWhiteSpace_tokens.
  - destruct (tokens (JS.trim command)) eqn:E; [|reflexivity].
    rewrite <- splitWhiteSpace_tokens in E.
    + now destruct (splitWhiteSpace_not_nil (JS.trim command)).
    + rewrite Ht; discriminate.
    + apply trim_no_leading.
    + apply trim_no_trailing.
  - rewrite Ht; discriminate.
  - apply trim_no_leading.
  - apply trim_no_trailing.
Qed.

(** ** The upward walk ends *)

Lemma length_list_ascii_of_string (s : string) :
  List.length (list_ascii_of_string s) = String.length s.
Proof. induction s; simpl; congruence. Qed.

Lemma length_substring_le (n : nat) (s : string) :
  String.length (String.substring 0 n s) <= n.
Proof.
  revert s. induction n as [|n IH]; intros [|c s]; simpl; try lia.
  specialize (IH s). lia.
Qed.

Lemma dirnameEnd_bound (l : list ascii) (matchedSlash : bool) (e : nat) :
  Path.dirnameEnd l matchedSlash = Some e ->
  1 <= e /\ e + (if matchedSlash then 1 else 0) <= List.length l.
Proof.
  revert matchedSlash. induction l as [|c rest IH]; intros b H; simpl in H; [discriminate|].
  destruct (Ascii.eqb c "/").
  - destruct b.
    + apply IH in H. simpl. lia.
    + inversion H; subst. simpl. lia.
  - apply IH in H. simpl. destruct b; lia.
Qed.

(** One step up either reaches [.] or gives a shorter path. *)
Lemma dirname_shorter (p : string) :
  walkContinues p = true ->
  Path.dirname p = "." \/ String.length (Path.dirname p) < String.length p.
Proof.
  unfold walkContinues. intros H. apply andb_prop in H as [_ H].
  apply negb_true_iff, String.eqb_neq in H.
  destruct p as [|c0 rest]; [now left|].
  unfold Path.dirname in *.
  destruct (Path.dirnameEnd (rev (list_ascii_of_string rest)) true) as [e|] eqn:He.
  - apply dirnameEnd_bound in He.
    rewrite length_rev, length_list_ascii_of_string in He.
    destruct (Ascii.eqb c0 "/" && (e =? 1)%nat).
    + right. simpl. lia.
    + right. pose proof (length_substring_le e (String c0 rest)).
      simpl String.length in *. lia.
  - destruct (Ascii.eqb c0 "/") eqn:Hc; [|now left].
    right. destruct rest as [|c1 rest'].
    + apply Ascii.eqb_eq in Hc. subst. now destruct H.
    + simpl. lia.
Qed.

Lemma walkMeasure_le_fuel (p : string) : walkMeasure p <= walkFuel p.
Proof. unfold walkMeasure, walkFuel. destruct (String.eqb p "."); lia. Qed.

Lemma walkMeasure_dirname (p : string) :
  walkContinues p = true -> walkMeasure (Path.dirname p) < walkMeasure p.
Proof.
  intros H. pose proof (dirname_shorter p H) as Hs.
  unfold walkContinues in H. apply andb_prop in H as [_ H].
  apply negb_true_iff, String.eqb_neq in H.
  unfold walkMeasure.
  destruct (String.eqb p ".") eqn:Hp.
  - apply String.eqb_eq in Hp. subst. now destruct H.
  - destruct (String.eqb (Path.dirname p) ".") eqn:Hd; [lia|].
    destruct Hs as [Hs|Hs]; [|lia].
    rewrite Hs in Hd. discriminate.
Qed.

Lemma ancestorsUpTo_fuel (n m : nat) (p : string) :
  walkMeasure p <= n -> walkMeasure p <= m -> ancestorsUpTo n p = ancestorsUpTo m p.
Proof.
  revert m p. induction n as [|n IH]; intros m p Hn Hm.
  - unfold walkMeasure in Hn. destruct (String.eqb p "."); lia.
  - destruct m as [|m].
    + unfold walkMeasure in Hm. destruct (String.eqb p "."); lia.
    + simpl. destruct (walkContinues p) eqn:Hc; [|reflexivity].
      pose proof (walkMeasure_dirname p Hc). f_equal. apply IH; lia.
Qed.

(** The walk as the loop it models: no bound in sight. *)
Lemma ancestors_unfold (dir : string) :
  ancestors dir =
  if walkContinues dir then dir :: ancestors (Path.dirname dir) else [].
Proof.
  unfold ancestors at 1.
  replace (walkFuel dir) with (S (String.length dir + 1)) by (unfold walkFuel; lia).
  cbn [ancestorsUpTo].
  destruct (walkContinues dir) eqn:Hc; [|reflexivity].
  f_equal. pose proof (walkMeasure_dirname dir Hc).
  pose proof (walkMeasure_le_fuel dir). pose proof (walkMeasure_le_fuel (Path.dirname dir)).
  unfold ancestors. apply ancestorsUpTo_fuel; unfold walkFuel in *; lia.
Qed.

Lemma walkUp_ancestors (fs : FileSystem) (n : nat) (p : string) :
  walkUp fs n p = filter (access fs) (map ignoreFileIn (ancestorsUpTo n p)).
Proof.
  revert p. induction n as [|n IH]; intros p; simpl; [reflexivity|].
  destruct (walkContinues p); [|reflexivity].
  simpl. fold (ignoreFileIn p). rewrite IH.
  destruct (access fs (ignoreFileIn p)); reflexivity.
Qed.

(** The [while] loop of [findKilocodeIgnoreFiles], free of its bound. *)
Lemma walkUp_unfold (fs : FileSystem) (p : string) :
  walkUp fs (walkFuel p) p =
  if walkContinues p then
    ((if access fs (ignoreFileIn p) then [ignoreFileIn p] else [])
       ++ walkUp fs (walkFuel (Path.dirname p)) (Path.dirname p))%list
  else [].
Proof.
  rewrite !walkUp_ancestors. fold (ancestors p). fold (ancestors (Path.dirname p)).
  rewrite ancestors_unfold.
  destruct (walkContinues p); [|reflexivity].
  cbn [map filter]. now destruct (access fs (ignoreFileIn p)).
Qed.

Lemma findKilocodeIgnoreFiles_spec (fs : FileSystem) (targetPath : string) :
  findKilocodeIgnoreFiles fs targetPath =
  rev (filter (access fs)
         (map ignoreFileIn (ancestors (Path.resolve (processCwd fs) [targetPath])))).
Proof. unfold findKilocodeIgnoreFiles, ancestors. now rewrite walkUp_ancestors. Qed.

(** ** The path check and [toPosix] *)

Lemma invalidPath_slash (p : string) : Path.isAbsolute p = true -> invalidPath p = true.
Proof.
  destruct p as [|c p']; [discriminate|]. unfold Path.isAbsolute.
  destruct (Ascii.eqb c "/") eqn:Hc.
  - apply Ascii.eqb_eq in Hc. subst. reflexivity.
  - intros H. exfalso. revert H Hc.
    destruct c as [[] [] [] [] [] [] [] []]; simpl; congruence.
Qed.

Lemma invalidPath_dotdot_slash (p : string) :
  JS.startsWith p "../" = true -> invalidPath p = true.
Proof.
  intros H.
  destruct p as [|a [|b [|c p']]]; simpl in H;
    repeat (apply andb_prop in H as [?%Ascii.eqb_eq H]); subst;
    try discriminate; try (apply andb_prop in H; destruct H; discriminate).
  reflexivity.
Qed.

Lemma isAbsolute_toPosix (p : string) :
  Path.isAbsolute p = true -> Path.isAbsolute (toPosix p) = true.
Proof.
  destruct p as [|c p']; [discriminate|]. unfold Path.isAbsolute.
  destruct (Ascii.eqb c "/") eqn:Hc.
  - apply Ascii.eqb_eq in Hc. subst. reflexivity.
  - intros H. exfalso. revert H Hc.
    destruct c as [[] [] [] [] [] [] [] []]; simpl; congruence.
Qed.

Lemma startsWith_toPosix (p : string) :
  JS.startsWith p "../" = true -> JS.startsWith (toPosix p) "../" = true.
Proof.
  intros H.
  destruct p as [|a [|b [|c p']]]; simpl in H;
    repeat (apply andb_prop in H as [?%Ascii.eqb_eq H]); subst;
    try discriminate; try (apply andb_prop in H; destruct H; discriminate).
  reflexivity.
Qed.

(** A path that passes the check stays inside the root. *)
Lemma valid_not_escaping (p : string) :
  invalidPath p = false -> escapesRoot p = false.
Proof.
  intros H. unfold escapesRoot.
  destruct (String.eqb p "..") eqn:H1.
  { apply String.eqb_eq in H1. subst. discriminate. }
  destruct (JS.startsWith p "../") eqn:H2.
  { apply invalidPath_dotdot_slash in H2. congruence. }
  destruct (Path.isAbsolute p) eqn:H3.
  { apply invalidPath_slash in H3. congruence. }
  reflexivity.
Qed.

(** ** The load *)

Section Load.

Context {L : IgnoreLib}.

Lemma readOne_spec (fs : FileSystem) (cwd filePath : string) :
  readOne fs cwd filePath = (contribution fs cwd filePath, readWarnings fs filePath).
Proof.
  unfold readOne, contribution, readWarnings, readWarning.
  destruct (readFile fs filePath) as [content|e]; [|reflexivity].
  destruct (JS.trim content); reflexivity.
Qed.

Lemma readAll_spec (fs : FileSystem) (cwd : string) (files : list string) :
  readAll fs cwd files =
  (flat_map (contribution fs cwd) files, flat_map (readWarnings fs) files).
Proof.
  induction files as [|f rest IH]; simpl; [reflexivity|].
  now rewrite readOne_spec, IH.
Qed.

(** The [try] block, case by case. *)
Lemma loadRooIgnore_try_cases (fs : FileSystem) (this : RooIgnoreController) :
  let files := findKilocodeIgnoreFiles fs (cwd this) in
  let buffer := flat_map (contribution fs (cwd this)) files in
  let warned := flat_map (readWarnings fs) files in
  let fresh := set_ignoreInstance ignore this in
  loadRooIgnore_try fs this =
  match buffer with
  | [] => (Ok tt, set_rooIgnoreContent None fresh, warned)
  | _ =>
      let text := JS.join newline buffer in
      let loaded := set_rooIgnoreContent (Some text) fresh in
      match add ignore text with
      | Throw e => (Throw e, loaded, warned)
      | Ok m1 =>
          match add m1 SELF_HIDING_RULE with
          | Throw e => (Throw e, set_ignoreInstance m1 loaded, warned)
          | Ok m2 => (Ok tt, set_ignoreInstance m2 (set_ignoreInstance m1 loaded), warned)
          end
      end
  end.
Proof.
  unfold loadRooIgnore_try. cbn [cwd set_ignoreInstance].
  rewrite readAll_spec. cbn zeta.
  destruct (findKilocodeIgnoreFiles fs (cwd this)) as [|f rest]; [reflexivity|].
  destruct (flat_map (contribution fs (cwd this)) (f :: rest)); reflexivity.
Qed.

Lemma loadRooIgnore_try_content (fs : FileSystem) (this : RooIgnoreController) :
  rooIgnoreContent (snd (fst (loadRooIgnore_try fs this))) =
  combinedText (flat_map (contribution fs (cwd this))
                  (findKilocodeIgnoreFiles fs (cwd this))).
Proof.
  pose proof (loadRooIgnore_try_cases fs this) as H. cbn zeta in H. rewrite H.
  destruct (flat_map _ _) as [|b bs]; [reflexivity|].
  destruct (add ignore _) as [m1|e]; [|reflexivity].
  destruct (add m1 _); reflexivity.
Qed.

Lemma loadRooIgnore_try_warned (fs : FileSystem) (this : RooIgnoreController) :
  snd (loadRooIgnore_try fs this) =
  flat_map (readWarnings fs) (findKilocodeIgnoreFiles fs (cwd this)).
Proof.
  pose proof (loadRooIgnore_try_cases fs this) as H. cbn zeta in H. rewrite H.
  destruct (flat_map (contribution _ _) _) as [|b bs]; [reflexivity|].
  destruct (add ignore _) as [m1|e]; [|reflexivity].
  destruct (add m1 _); reflexivity.
Qed.

(** When the block runs to its end the load leaves what the block left. *)
Lemma loadRooIgnore_completed (fs : FileSystem) (this : RooIgnoreController) :
  fst (fst (loadRooIgnore_try fs this)) = Ok tt ->
  loadRooIgnore fs this =
  (snd (fst (loadRooIgnore_try fs this)), snd (loadRooIgnore_try fs this)).
Proof.
  unfold loadRooIgnore.
  destruct (loadRooIgnore_try fs this) as [[[u|e] this'] logged]; simpl;
    [reflexivity|discriminate].
Qed.

Lemma loadRooIgnore_caught (fs : FileSystem) (this this1 : RooIgnoreController)
  (e : Thrown) (logged : list LogEntry) :
  loadRooIgnore_try fs this = (Throw e, this1, logged) ->
  loadRooIgnore fs this =
  (set_ignoreInstance ignore (set_rooIgnoreContent None this1),
   (logged ++ [loadError e])%list).
Proof. unfold loadRooIgnore. now intros ->. Qed.

(** The log of a load starts with the warnings of the read loop. *)
Lemma loadRooIgnore_logged (fs : FileSystem) (this : RooIgnoreController) :
  exists rest,
    snd (loadRooIgnore fs this) =
    (flat_map (readWarnings fs) (findKilocodeIgnoreFiles fs (cwd this)) ++ rest)%list.
Proof.
  rewrite <- loadRooIgnore_try_warned. unfold loadRooIgnore.
  destruct (loadRooIgnore_try fs this) as [[[u|e] this'] logged]; simpl.
  - exists []. now rewrite app_nil_r.
  - eexists. reflexivity.
Qed.

(** A combined content, once set, is never the empty string. *)
Lemma combinedText_truthy (buffer : list string) (fs : FileSystem) (cwd : string)
  (files : list string) :
  buffer = flat_map (contribution fs cwd) files ->
  JS.truthy (combinedText buffer) = negb (match buffer with [] => true | _ => false end).
Proof.
  intros ->. induction files as [|f rest IH]; [reflexivity|].
  simpl. unfold contribution at 1 3.
  destruct (readFile fs f) as [content|e]; [|exact IH].
  destruct (String.eqb (JS.trim content) ""); [exact IH|reflexivity].
Qed.

Lemma validateAccess_sentinel (fs : FileSystem) (this : RooIgnoreController) (p : string) :
  rooIgnoreContent this = None -> validateAccess fs this p = true.
Proof. unfold validateAccess. now intros ->. Qed.

Lemma contribution_unreadable (fs : FileSystem) (cwd f : string) (e : Thrown)
  (files : list string) :
  readFile fs f = Throw e ->
  flat_map (contribution fs cwd) files =
  flat_map (contribution fs cwd) (filter (fun g => negb (String.eqb g f)) files).
Proof.
  intros Hr. induction files as [|g rest IH]; [reflexivity|].
  cbn [flat_map filter]. destruct (String.eqb g f) eqn:Hg; cbn [negb].
  - apply String.eqb_eq in Hg. subst g.
    unfold contribution at 1. rewrite Hr. exact IH.
  - cbn [flat_map]. now rewrite IH.
Qed.

Lemma readWarnings_in (fs : FileSystem) (f : string) (e : Thrown) (files : list string) :
  In f files -> readFile fs f = Throw e ->
  In (readWarning f e) (flat_map (readWarnings fs) files).
Proof.
  intros Hin Hr. apply in_flat_map. exists f. split; [exact Hin|].
  unfold readWarnings. rewrite Hr. now left.
Qed.

(** What an active content after a load says about the matcher. *)
Lemma loadRooIgnore_active (fs : FileSystem) (this : RooIgnoreController) (text : string) :
  rooIgnoreContent (fst (loadRooIgnore fs this)) = Some text ->
  JS.truthy (Some text) = true /\
  Some text = combinedText (flat_map (contribution fs (cwd this))
                              (findKilocodeIgnoreFiles fs (cwd this))) /\
  exists m1,
    add ignore text = Ok m1 /\
    add m1 SELF_HIDING_RULE = Ok (ignoreInstance (fst (loadRooIgnore fs this))).
Proof.
  unfold loadRooIgnore.
  pose proof (loadRooIgnore_try_cases fs this) as Hc. cbn zeta in Hc. rewrite Hc.
  pose proof (combinedText_truthy _ fs (cwd this)
                (findKilocodeIgnoreFiles fs (cwd this)) eq_refl) as Ht.
  destruct (flat_map (contribution fs (cwd this)) _) as [|b bs] eqn:Hb.
  { discriminate. }
  cbn [negb] in Ht.
  destruct (add ignore (JS.join newline (b :: bs))) as [m1|e] eqn:H1; [|discriminate].
  destruct (add m1 SELF_HIDING_RULE) as [m2|e] eqn:H2; [|discriminate].
  cbn [fst rooIgnoreContent set_ignoreInstance set_rooIgnoreContent ignoreInstance].
  intros Heq. inversion Heq; subst text.
  split; [exact Ht|]. split; [reflexivity|]. exists m1. split; assumption.
Qed.

(** With a matcher that accepts its input, the [try] block runs to its end. *)
Lemma loadRooIgnore_try_accepting (fs : FileSystem) (this : RooIgnoreController) :
  (forall m text, exists m', add m text = Ok m') ->
  fst (fst (loadRooIgnore_try fs this)) = Ok tt.
Proof.
  intros Hadd.
  pose proof (loadRooIgnore_try_cases fs this) as Hc. cbn zeta in Hc. rewrite Hc.
  destruct (flat_map (contribution fs (cwd this)) _) as [|b bs]; [reflexivity|].
  destruct (Hadd ignore (JS.join newline (b :: bs))) as [m1 ->].
  now destruct (Hadd m1 SELF_HIDING_RULE) as [m2 ->].
Qed.

End Load.

(** ** The small matcher obeys the laws *)

Lemma gitignore_verdict_last (rules : list Gitignore.Rule) (r : Gitignore.Rule)
  (segs : list string) (isDirectory : bool) :
  Gitignore.verdict (rules ++ [r]) segs isDirectory =
  if Gitignore.ruleMatches r segs isDirectory
  then negb (Gitignore.negative r)
  else Gitignore.verdict rules segs isDirectory.
Proof. unfold Gitignore.verdict. now rewrite fold_left_app. Qed.

Lemma gitignore_ignoredAlong_last (rules : list Gitignore.Rule)
  (above xs : list string) (k : string) (isDirectory : bool) :
  Gitignore.verdict rules (above ++ xs ++ [k]) isDirectory = true ->
  Gitignore.ignoredAlong rules above (xs ++ [k]) isDirectory = true.
Proof.
  revert above. induction xs as [|x xs IH]; intros above H; [exact H|].
  cbn [app Gitignore.ignoredAlong]. cbn [app] in H.
  destruct (xs ++ [k])%list as [|y ys] eqn:E.
  { now destruct (app_cons_not_nil xs [] k). }
  rewrite IH; [apply orb_true_r|].
  rewrite <- app_assoc. exact H.
Qed.

Lemma gitignore_globPath_self (xs : list string) :
  Gitignore.globPath ["**"; IGNORE_FILE_NAME] (xs ++ [IGNORE_FILE_NAME]) = true.
Proof.
  induction xs as [|x xs IH]; [reflexivity|].
  simpl in IH |- *. rewrite IH. apply orb_true_r.
Qed.

Lemma last_app_split (l : list string) (k : string) :
  last l "" = k -> k <> "" -> exists xs, l = (xs ++ [k])%list.
Proof.
  intros H Hk. destruct l as [|a l'].
  - simpl in H. congruence.
  - exists (removelast (a :: l')). rewrite <- H.
    apply app_removelast_last. discriminate.
Qed.

#[export] Instance Gitignore_laws : IgnoreLaws Gitignore.lib.
Proof.
  split.
  - intros m p H. simpl. unfold Gitignore.ignoresPath. rewrite H. eexists. reflexivity.
  - intros m m' p Hadd Hvalid Hlast. simpl in *.
    inversion Hadd; subst m'; clear Hadd.
    unfold Gitignore.ignoresPath. rewrite Hvalid.
    unfold finalSegment in Hlast.
    destruct (last_app_split _ _ Hlast) as [xs Hxs]; [discriminate|].
    rewrite Hxs. unfold Gitignore.dropTrailingEmpty. rewrite rev_unit.
    cbn [IGNORE_FILE_NAME]. cbv iota. f_equal.
    apply gitignore_ignoredAlong_last.
    change (Gitignore.parse SELF_HIDING_RULE)
      with [ {| Gitignore.negative := false; Gitignore.directoryOnly := false;
                Gitignore.pattern := ["**"; IGNORE_FILE_NAME] |} ].
    rewrite gitignore_verdict_last. unfold Gitignore.ruleMatches.
    cbn [Gitignore.directoryOnly Gitignore.pattern Gitignore.negative negb orb andb app].
    now rewrite gitignore_globPath_self.
Qed.

(** ** The command scan and the batch filter *)

Section Queries.

Context {L : IgnoreLib}.

Lemma scanArguments_find (fs : FileSystem) (this : RooIgnoreController)
  (args : list string) :
  scanArguments fs this args =
  find (fun arg => negb (skippedToken arg) && negb (validateAccess fs this arg)) args.
Proof.
  induction args as [|arg rest IH]; [reflexivity|].
  cbn [scanArguments find]. unfold skippedToken.
  destruct (JS.startsWith arg "-"); cbn [orb negb andb]; [exact IH|].
  destruct (JS.startsWith arg "/"); cbn [orb negb andb]; [exact IH|].
  destruct (JS.includes arg ":"); cbn [orb negb andb]; [exact IH|].
  destruct (validateAccess fs this arg); cbn [orb negb andb]; [exact IH|reflexivity].
Qed.

Lemma find_none_allowed (fs : FileSystem) (this : RooIgnoreController)
  (args : list string) :
  (forall p, validateAccess fs this p = true) ->
  find (fun arg => negb (skippedToken arg) && negb (validateAccess fs this arg)) args = None.
Proof.
  intros H. induction args as [|arg rest IH]; [reflexivity|].
  cbn [find]. rewrite H. cbn [negb]. rewrite andb_false_r. exact IH.
Qed.

Lemma validateAccess_inactive (fs : FileSystem) (this : RooIgnoreController) (p : string) :
  JS.truthy (rooIgnoreContent this) = false -> validateAccess fs this p = true.
Proof. unfold validateAccess. now intros ->. Qed.

Lemma validateCommand_spec (fs : FileSystem) (this : RooIgnoreController)
  (command : string) :
  validateCommand fs this command =
  let parts := JS.splitWhiteSpace (JS.trim command) in
  if JS.arrayIncludes fileReadingCommands (JS.toLowerCase (hd "" parts))
  then find (fun arg => negb (skippedToken arg) && negb (validateAccess fs this arg))
            (tl parts)
  else None.
Proof.
  unfold validateCommand. cbn zeta.
  destruct (JS.truthy (rooIgnoreContent this)) eqn:Ht; cbn [negb].
  - now rewrite scanArguments_find.
  - rewrite find_none_allowed.
    + now destruct (JS.arrayIncludes fileReadingCommands
                      (JS.toLowerCase (hd "" (JS.splitWhiteSpace (JS.trim command))))).
    + intros p. now apply validateAccess_inactive.
Qed.

Lemma mapAllowed_total (f : string -> bool) (paths : list string) :
  mapAllowed (fun p => Ok (f p)) paths = Ok (map (fun p => (p, f p)) paths).
Proof. induction paths as [|p rest IH]; simpl; [reflexivity|now rewrite IH]. Qed.

Lemma mapAllowed_throws (validate : string -> result bool) (paths : list string)
  (p : string) (e : Thrown) :
  In p paths -> validate p = Throw e -> exists e', mapAllowed validate paths = Throw e'.
Proof.
  induction paths as [|q rest IH]; simpl; [tauto|].
  intros [->|Hin] Hp.
  - rewrite Hp. eauto.
  - destruct (validate q); [|eauto].
    destruct (IH Hin Hp) as [e' ->]. eauto.
Qed.

Lemma filter_allowed (f : string -> bool) (paths : list string) :
  map fst (filter snd (map (fun p => (p, f p)) paths)) = filter f paths.
Proof.
  induction paths as [|p rest IH]; simpl; [reflexivity|].
  destruct (f p); simpl; now rewrite IH.
Qed.

Lemma filterPaths_spec (fs : FileSystem) (this : RooIgnoreController)
  (paths : list string) :
  filterPaths fs this paths = filter (validateAccess fs this) paths.
Proof.
  unfold filterPaths, filterPathsWith. rewrite mapAllowed_total. simpl.
  apply filter_allowed.
Qed.

End Queries.

(** ** Disposal and the debounce timer *)

Section Disposal.

Context {L : IgnoreLib}.

(** [dispose] touches neither the armed timers nor [reloadTimeout]. *)
Lemma dispose_keeps_timer (w : World) :
  armed (dispose w) = armed w /\
  reloadTimeout (controller (dispose w)) = reloadTimeout (controller w).
Proof. split; reflexivity. Qed.

(** Hence a timer armed before [dispose] still runs the load after it. *)
Lemma timer_fires_after_dispose (w : World) (t : Timeout) :
  In t (armed w) ->
  loads (step (step w CallDispose) (TimerElapses t)) = S (loads w).
Proof.
  intros Hin. cbn [step]. cbn [dispose armed].
  assert (existsb (Nat.eqb t) (armed w) = true) as ->.
  { apply existsb_exists. exists t. split; [exact Hin|apply Nat.eqb_refl]. }
  unfold reloadCallback.
  destruct (loadRooIgnore _ _) as [this' logged]. reflexivity.
Qed.

(** What [dispose] does achieve: with every live subscription held in
    [disposables], as [setupFileWatcher] leaves them, none is left, and a
    later change of an ignore-file arms no timer and runs no load. *)
Lemma dispose_silences_watcher (w : World) (kind : Disposable) (fs' : FileSystem) :
  (forall d, In d (subscribed w) -> In d (disposables (controller w))) ->
  subscribed (dispose w) = [] /\
  armed (step (dispose w) (FileEvent kind fs')) = armed w /\
  loads (step (dispose w) (FileEvent kind fs')) = loads w.
Proof.
  intros Hheld.
  assert (subscribed (dispose w) = []) as Hnone.
  { cbn [dispose subscribed].
    induction (subscribed w) as [|d ds IH]; [reflexivity|].
    cbn [filter].
    assert (existsb (Disposable_eqb d) (disposables (controller w)) = true) as ->.
    { apply existsb_exists. exists d. split; [apply Hheld; now left|now destruct d]. }
    cbn [negb]. apply IH. intros d' Hd'. apply Hheld. now right. }
  split; [exact Hnone|].
  cbn [step]. unfold listening. cbn [subscribed]. rewrite Hnone.
  split; reflexivity.
Qed.

End Disposal.

(** * The claims *)

Section Claims.

Context {L : IgnoreLib}.

(** C1. When a call in the [try] block of the load raises (which the read
    loop cannot cause: it catches its own exceptions), the load catches the
    exception, logs it, leaves the combined content [undefined] and the
    matcher a fresh empty instance; from then on [validateAccess] returns
    [true] for every path, whatever the disk holds. *)
Theorem C1_unexpected_failure_resets (fs : FileSystem)
  (this this1 : RooIgnoreController) (e : Thrown) (logged : list LogEntry) :
  loadRooIgnore_try fs this = (Throw e, this1, logged) ->
  rooIgnoreContent (fst (loadRooIgnore fs this)) = None /\
  ignoreInstance (fst (loadRooIgnore fs this)) = ignore /\
  snd (loadRooIgnore fs this) = (logged ++ [loadError e])%list /\
  forall (fs' : FileSystem) (p : string),
    validateAccess fs' (fst (loadRooIgnore fs this)) p = true.
Proof.
  intros H. rewrite (loadRooIgnore_caught _ _ _ _ _ H). cbn [fst snd].
  split; [reflexivity|]. split; [reflexivity|]. split; [reflexivity|].
  intros fs' p. now apply validateAccess_sentinel.
Qed.

(** C2, as amended.  [validateAccess] returns [true], and raises nothing,
    whenever its [try] block raises; and, the matcher rejecting paths that
    fail its path check, it returns [true] for every absolute or
    [../]-relative candidate whose real path (the candidate's absolute form
    when no link resolves) lies outside the workspace root, whatever the
    patterns. *)
Theorem C2_outside_paths_allowed {Laws : IgnoreLaws L} (fs : FileSystem)
  (this : RooIgnoreController) (p : string) :
  (exists e, validateAccess_try fs this p = Throw e) \/
  ((Path.isAbsolute p = true \/ JS.startsWith p "../" = true) /\
   escapesRoot (resolvedRelative fs this p) = true) ->
  validateAccess fs this p = true.
Proof.
  intros H. unfold validateAccess.
  destruct (JS.truthy (rooIgnoreContent this)); [|reflexivity]. cbn [negb].
  assert (exists e, validateAccess_try fs this p = Throw e) as [e ->]; [|reflexivity].
  destruct H as [H|[Hp Hesc]]; [exact H|].
  unfold validateAccess_try.
  assert (invalidPath (queriedPath fs this p) = true) as Hq.
  { unfold queriedPath. cbn zeta. unfold escapesRoot in Hesc.
    destruct (JS.startsWith (resolvedRelative fs this p) "../") eqn:H1; cbn [orb].
    - destruct Hp as [Hp|Hp].
      + now apply invalidPath_slash, isAbsolute_toPosix.
      + now apply invalidPath_dotdot_slash, startsWith_toPosix.
    - destruct (Path.isAbsolute (resolvedRelative fs this p)) eqn:H2.
      + destruct Hp as [Hp|Hp].
        * now apply invalidPath_slash, isAbsolute_toPosix.
        * now apply invalidPath_dotdot_slash, startsWith_toPosix.
      + rewrite !orb_false_r in Hesc. apply String.eqb_eq in Hesc.
        now rewrite Hesc. }
  destruct (ignores_invalid (ignoreInstance this) _ Hq) as [e ->]. eauto.
Qed.

(** C3. With the combined content [undefined], [validateAccess] returns
    [true] for every path; and a load that finds no ignore-file, or only
    files that read as empty or as white space, leaves the content
    [undefined], hence every path accessible. *)
Theorem C3_no_restrictions_allow_all (fs fs' : FileSystem)
  (this : RooIgnoreController) (p : string) :
  (rooIgnoreContent this = None -> validateAccess fs' this p = true) /\
  ((forall f, In f (findKilocodeIgnoreFiles fs (cwd this)) ->
      exists content, readFile fs f = Ok content /\ JS.trim content = "") ->
   rooIgnoreContent (fst (loadRooIgnore fs this)) = None /\
   validateAccess fs' (fst (loadRooIgnore fs this)) p = true).
Proof.
  split; [apply validateAccess_sentinel|].
  intros Hblank.
  assert (flat_map (contribution fs (cwd this))
            (findKilocodeIgnoreFiles fs (cwd this)) = []) as Hbuf.
  { induction (findKilocodeIgnoreFiles fs (cwd this)) as [|f rest IH]; [reflexivity|].
    cbn [flat_map]. rewrite IH by (intros g Hg; apply Hblank; now right).
    destruct (Hblank f (or_introl eq_refl)) as (content & Hr & Ht).
    unfold contribution. now rewrite Hr, Ht. }
  pose proof (loadRooIgnore_try_cases fs this) as Hc. cbn zeta in Hc.
  rewrite Hbuf in Hc.
  assert (rooIgnoreContent (fst (loadRooIgnore fs this)) = None) as Hnone.
  { unfold loadRooIgnore. now rewrite Hc. }
  split; [exact Hnone|now apply validateAccess_sentinel].
Qed.

(** C4. [validateCommand] takes the tokens of the command, its maximal runs
    of characters other than white space (the pieces of the trimmed command
    split on runs of white space).  When there is no token, or the
    lower-cased first token is not a file-reading command, the result is
    [undefined]; otherwise it is the first later token, from left to right,
    that neither starts with [-] or [/] nor contains [:] and for which
    [validateAccess] is [false], and [undefined] when there is none.
    Whenever [secrets/keys.json] is inaccessible, [cat secrets/keys.json]
    yields [secrets/keys.json]; [ls secrets] always yields [undefined]. *)
Theorem C4_validateCommand_scan (fs : FileSystem) (this : RooIgnoreController) :
  (forall command,
     JS.splitWhiteSpace (JS.trim command) =
     match tokens command with
     | [] => [""]
     | ts => ts
     end) /\
  (forall command,
     validateCommand fs this command =
     match tokens command with
     | [] => None
     | first :: rest =>
         if JS.arrayIncludes fileReadingCommands (JS.toLowerCase first)
         then find (fun arg => negb (skippedToken arg) && negb (validateAccess fs this arg))
                   rest
         else None
     end) /\
  (validateAccess fs this "secrets/keys.json" = false ->
   validateCommand fs this "cat secrets/keys.json" = Some "secrets/keys.json") /\
  validateCommand fs this "ls secrets" = None.
Proof.
  split; [apply parts_tokens|]. split; [|split].
  - intros command. rewrite validateCommand_spec, parts_tokens. cbn zeta.
    now destruct (tokens command).
  - intros H. rewrite validateCommand_spec.
    change (find (fun arg => negb (skippedToken arg) && negb (validateAccess fs this arg))
              ["secrets/keys.json"] = Some "secrets/keys.json").
    cbn [find]. rewrite H. reflexivity.
  - now rewrite validateCommand_spec.
Qed.

(** C5. [filterPaths] returns the paths for which [validateAccess] is
    [true], each once per occurrence and in the order of the input, so that
    [[a, b, c]] with only [b] ignored gives [[a, c]]; and when the
    [validateAccess] it calls raises on any element, it returns the empty
    list, whatever the length of the input; the empty input gives the empty
    list. *)
Theorem C5_filterPaths (fs : FileSystem) (this : RooIgnoreController) :
  (forall paths, filterPaths fs this paths = filter (validateAccess fs this) paths) /\
  (forall a b c,
     validateAccess fs this a = true -> validateAccess fs this b = false ->
     validateAccess fs this c = true -> filterPaths fs this [a; b; c] = [a; c]) /\
  (forall validate paths p e,
     In p paths -> validate p = Throw e -> fst (filterPathsWith validate paths) = []) /\
  (forall validate, fst (filterPathsWith validate []) = []).
Proof.
  split; [apply filterPaths_spec|]. split; [|split].
  - intros a b c Ha Hb Hc. rewrite filterPaths_spec. cbn [filter].
    now rewrite Ha, Hb, Hc.
  - intros validate paths p e Hin Hp. unfold filterPathsWith.
    now destruct (mapAllowed_throws validate paths p e Hin Hp) as [e' ->].
  - reflexivity.
Qed.

(** C6. The load visits the start directory and its parents in turn, keeps
    the ignore-files that exist in the order met, and reverses that list;
    the combined buffer is the concatenation, in the reversed order, of what
    each file contributes: the line [# From: ] followed by the file's path
    relative to the workspace root and then its raw content when the trimmed
    content is not empty, nothing otherwise; the combined content set by the
    load is that buffer joined by newlines, or [undefined] for the empty
    buffer. *)
Theorem C6_hierarchy_order (fs : FileSystem) (this : RooIgnoreController) :
  let start := Path.resolve (processCwd fs) [cwd this] in
  let discovered := filter (access fs) (map ignoreFileIn (ancestors start)) in
  let buffer := flat_map (contribution fs (cwd this)) (rev discovered) in
  (forall dir,
     ancestors dir =
     if walkContinues dir then dir :: ancestors (Path.dirname dir) else []) /\
  findKilocodeIgnoreFiles fs (cwd this) = rev discovered /\
  fst (readAll fs (cwd this) (rev discovered)) = buffer /\
  rooIgnoreContent (snd (fst (loadRooIgnore_try fs this))) = combinedText buffer /\
  (fst (fst (loadRooIgnore_try fs this)) = Ok tt ->
   rooIgnoreContent (fst (loadRooIgnore fs this)) = combinedText buffer).
Proof.
  cbn zeta. split; [apply ancestors_unfold|].
  rewrite <- findKilocodeIgnoreFiles_spec. split; [reflexivity|].
  split; [now rewrite readAll_spec|].
  split; [apply loadRooIgnore_try_content|].
  intros H. rewrite (loadRooIgnore_completed _ _ H). cbn [fst].
  apply loadRooIgnore_try_content.
Qed.

(** C7. The scenario that breaks the claim: an ignore-file changes while
    the controller is running, the caller disposes of the controller before
    the debounce delay is over, and the delay elapses.  [dispose] has
    released every subscription but left the timer armed, so the reload
    still runs after [dispose] has returned, and replaces the combined
    content. *)
Theorem C7_reload_runs_after_dispose :
  subscribed Scenario.disposedWhilePending = [] /\
  disposables (controller Scenario.disposedWhilePending) = [] /\
  reloadTimeout (controller Scenario.disposedWhilePending) = Some 0 /\
  armed Scenario.disposedWhilePending = [0] /\
  loads Scenario.disposedWhilePending = 1 /\
  loads Scenario.afterTheDelay = 2 /\
  rooIgnoreContent (controller Scenario.disposedWhilePending)
  = Some ("# From: .kilocodeignore" ++ newline ++ "secrets/**") /\
  rooIgnoreContent (controller Scenario.afterTheDelay)
  = Some ("# From: .kilocodeignore" ++ newline ++ "build/").
Proof. vm_compute. repeat split. Qed.

(** C8. When a discovered ignore-file cannot be read, the load logs the
    warning that names the file and the error, and goes on: the combined
    buffer and the combined content are those of the other discovered files,
    each of them processed; and, the matcher accepting its input, the load
    runs to its end and the matcher is the one fed with that content and the
    self-hiding rule. *)
Theorem C8_unreadable_file_skipped (fs : FileSystem) (this : RooIgnoreController)
  (f : string) (e : Thrown) :
  In f (findKilocodeIgnoreFiles fs (cwd this)) ->
  readFile fs f = Throw e ->
  let files := findKilocodeIgnoreFiles fs (cwd this) in
  let others := filter (fun g => negb (String.eqb g f)) files in
  let buffer := flat_map (contribution fs (cwd this)) others in
  In (readWarning f e) (snd (loadRooIgnore fs this)) /\
  fst (readAll fs (cwd this) files) = buffer /\
  rooIgnoreContent (snd (fst (loadRooIgnore_try fs this))) = combinedText buffer /\
  ((forall m text, exists m', add m text = Ok m') ->
   fst (fst (loadRooIgnore_try fs this)) = Ok tt /\
   rooIgnoreContent (fst (loadRooIgnore fs this)) = combinedText buffer /\
   forall text,
     combinedText buffer = Some text ->
     exists m1,
       add ignore text = Ok m1 /\
       add m1 SELF_HIDING_RULE = Ok (ignoreInstance (fst (loadRooIgnore fs this)))).
Proof.
  intros Hin Hr. cbn zeta.
  rewrite <- (contribution_unreadable fs (cwd this) f e _ Hr).
  split.
  { destruct (loadRooIgnore_logged fs this) as [rest ->].
    apply in_or_app. left. now apply readWarnings_in. }
  split; [now rewrite readAll_spec|].
  split; [apply loadRooIgnore_try_content|].
  intros Hadd. pose proof (loadRooIgnore_try_accepting fs this Hadd) as Hok.
  split; [exact Hok|].
  assert (rooIgnoreContent (fst (loadRooIgnore fs this)) =
          combinedText (flat_map (contribution fs (cwd this))
                          (findKilocodeIgnoreFiles fs (cwd this)))) as Hcontent.
  { rewrite (loadRooIgnore_completed _ _ Hok). cbn [fst].
    apply loadRooIgnore_try_content. }
  split; [exact Hcontent|].
  intros text Htext. rewrite Htext in Hcontent.
  now destruct (loadRooIgnore_active fs this text Hcontent) as (_ & _ & Hm).
Qed.

(** C9, as amended.  After a load that leaves a combined content, the
    matcher is the fresh instance fed with that content and then with the
    rule [**/.kilocodeignore]; so, the matcher obeying that rule, under the
    loaded state [validateAccess] returns [false] for every path whose
    queried form (its real path taken relative to the workspace root, or the
    path as given when that real path leaves the root) passes the matcher's
    path check and has [.kilocodeignore] as its final segment. *)
Theorem C9_self_hiding_rule {Laws : IgnoreLaws L} (fs : FileSystem)
  (this : RooIgnoreController) (text : string) :
  rooIgnoreContent (fst (loadRooIgnore fs this)) = Some text ->
  (exists m1,
     add ignore text = Ok m1 /\
     add m1 SELF_HIDING_RULE = Ok (ignoreInstance (fst (loadRooIgnore fs this)))) /\
  forall (fs' : FileSystem) (p : string),
    invalidPath (queriedPath fs' (fst (loadRooIgnore fs this)) p) = false ->
    finalSegment (queriedPath fs' (fst (loadRooIgnore fs this)) p) = IGNORE_FILE_NAME ->
    validateAccess fs' (fst (loadRooIgnore fs this)) p = false.
Proof.
  intros Hcontent.
  destruct (loadRooIgnore_active fs this text Hcontent) as (Ht & _ & m1 & H1 & H2).
  split; [now exists m1|].
  intros fs' p Hvalid Hlast.
  unfold validateAccess. rewrite Hcontent, Ht. cbn [negb].
  unfold validateAccess_try.
  now rewrite (ignores_self_hiding _ _ _ H2 Hvalid Hlast).
Qed.

(** C10. A string returned by [validateCommand] is one of the tokens of
    the command after the first, that is, one of the pieces of the trimmed
    command after the first, unchanged: it is not empty, holds no white
    space, and stands in the trimmed command between white space and white
    space or the end; it does not start with [-] or [/], contains no [:],
    and [validateAccess] is [false] on it in the same state. *)
Theorem C10_blocked_token (fs : FileSystem) (this : RooIgnoreController)
  (command r : string) :
  validateCommand fs this command = Some r ->
  (exists first rest, tokens command = first :: rest /\ In r rest) /\
  In r (tl (JS.splitWhiteSpace (JS.trim command))) /\
  argumentTokenOf (JS.trim command) r /\
  JS.startsWith r "-" = false /\
  JS.startsWith r "/" = false /\
  JS.includes r ":" = false /\
  validateAccess fs this r = false.
Proof.
  rewrite validateCommand_spec. cbn zeta.
  destruct (JS.arrayIncludes fileReadingCommands _); [|discriminate].
  intros H. apply find_some in H as [Hin Hp].
  apply andb_prop in Hp as [Hskip Hacc].
  apply negb_true_iff in Hskip, Hacc. unfold skippedToken in Hskip.
  apply orb_false_elim in Hskip as [Hskip Hcolon].
  apply orb_false_elim in Hskip as [Hdash Hslash].
  split.
  { rewrite parts_tokens in Hin.
    destruct (tokens command) as [|first rest]; [destruct Hin|].
    exists first, rest. now split. }
  split; [exact Hin|]. split; [now apply argument_tokens|].
  repeat split; assumption.
Qed.

End Claims.

(** * The claims at work on the scenarios *)

(** C1 at work: the package rejects the pattern text of [secretsDisk]; the
    load ends with no content, and the path the ignore-file names is
    accessible. *)
Lemma C1_witness :
  rooIgnoreContent
    (fst (loadRooIgnore Scenario.secretsDisk
            (Scenario.unloaded Scenario.secretsDisk "/workspace"))) = None /\
  snd (loadRooIgnore Scenario.secretsDisk
         (Scenario.unloaded Scenario.secretsDisk "/workspace"))
  = [loadError (ThrownError "Invalid regular expression")] /\
  validateAccess Scenario.secretsDisk
    (fst (loadRooIgnore Scenario.secretsDisk
            (Scenario.unloaded Scenario.secretsDisk "/workspace")))
    "secrets/keys.json" = true.
Proof.
  pose proof (C1_unexpected_failure_resets (L := Rejecting.lib)
                Scenario.secretsDisk
                (Scenario.unloaded Scenario.secretsDisk "/workspace")
                _ _ _ eq_refl) as (Hcontent & _ & Hlog & Hall).
  split; [exact Hcontent|]. split; [exact Hlog|]. apply Hall.
Defined.

(** The claim C2 as stated fails: [/outside/link] is an absolute path
    outside [/workspace], yet with [secrets/**] active it is refused, being
    a link to [/workspace/secrets/keys.json]. *)
Lemma C2_counterexample :
  Path.isAbsolute "/outside/link" = true /\
  escapesRoot (spelledRelative Scenario.linkedInDisk "/workspace" "/outside/link") = true /\
  rooIgnoreContent (Scenario.loaded Scenario.linkedInDisk "/workspace")
  = Some ("# From: .kilocodeignore" ++ newline ++ "secrets/**") /\
  validateAccess Scenario.linkedInDisk
    (Scenario.loaded Scenario.linkedInDisk "/workspace") "/outside/link" = false.
Proof. vm_compute. repeat split. Qed.

(** C2 at work: [/etc/hosts] and [../secrets/keys.json] lead outside
    [/workspace] and are accessible with [secrets/**] active. *)
Lemma C2_witness :
  validateAccess Scenario.secretsDisk
    (Scenario.loaded Scenario.secretsDisk "/workspace") "/etc/hosts" = true /\
  validateAccess Scenario.secretsDisk
    (Scenario.loaded Scenario.secretsDisk "/workspace") "../secrets/keys.json" = true.
Proof.
  split.
  - apply (C2_outside_paths_allowed (L := Gitignore.lib) (Laws := Gitignore_laws)).
    right. split; [left; reflexivity|vm_compute; reflexivity].
  - apply (C2_outside_paths_allowed (L := Gitignore.lib) (Laws := Gitignore_laws)).
    right. split; [right; reflexivity|vm_compute; reflexivity].
Defined.

(** C3 at work: the only ignore-file of [blankDisk] holds white space. *)
Lemma C3_witness :
  rooIgnoreContent
    (fst (loadRooIgnore Scenario.blankDisk
            (controller (construct (L := Gitignore.lib) Scenario.blankDisk "/workspace"))))
  = None /\
  validateAccess Scenario.secretsDisk
    (fst (loadRooIgnore Scenario.blankDisk
            (controller (construct (L := Gitignore.lib) Scenario.blankDisk "/workspace"))))
    "secrets/key" = true.
Proof.
  apply (C3_no_restrictions_allow_all (L := Gitignore.lib)).
  intros f Hin. vm_compute in Hin. destruct Hin as [<-|[]].
  exists "   ". split; reflexivity.
Defined.

(** C4 at work, with [secrets/**] loaded from [secretsDisk]. *)
Lemma C4_witness :
  validateCommand Scenario.secretsDisk
    (Scenario.loaded Scenario.secretsDisk "/workspace") "cat secrets/keys.json"
  = Some "secrets/keys.json".
Proof.
  apply (C4_validateCommand_scan (L := Gitignore.lib)).
  vm_compute. reflexivity.
Defined.

(** C5 at work: one ignored path among three, and a throwing stub in the
    place of [validateAccess]. *)
Lemma C5_witness :
  filterPaths Scenario.secretsDisk
    (Scenario.loaded Scenario.secretsDisk "/workspace")
    ["src/app.ts"; "secrets/keys.json"; "README.md"]
  = ["src/app.ts"; "README.md"] /\
  fst (filterPathsWith Scenario.throwingStub ["file1.txt"; "file2.txt"]) = [].
Proof.
  pose proof (C5_filterPaths (L := Gitignore.lib) Scenario.secretsDisk
                (Scenario.loaded Scenario.secretsDisk "/workspace"))
    as (_ & Habc & Hthrow & _).
  split.
  - apply Habc; vm_compute; reflexivity.
  - apply (Hthrow _ _ "file2.txt" (ThrownError "Test error")).
    + right. left. reflexivity.
    + reflexivity.
Defined.

(** C6 at work on [nestedDisk], from [/test/path]: the file at the
    filesystem root is not visited, the file of [/test] comes first and,
    holding white space, adds nothing. *)
Lemma C6_witness :
  findKilocodeIgnoreFiles Scenario.nestedDisk "/test/path"
  = ["/test/.kilocodeignore"; "/test/path/.kilocodeignore"] /\
  rooIgnoreContent (Scenario.loaded Scenario.nestedDisk "/test/path")
  = Some ("# From: .kilocodeignore" ++ newline ++ "*.log").
Proof.
  pose proof (C6_hierarchy_order (L := Gitignore.lib) Scenario.nestedDisk
                (controller (construct Scenario.nestedDisk "/test/path"))) as H.
  cbv zeta in H. destruct H as (_ & Hfiles & _ & _ & Hcontent).
  split.
  - change "/test/path"
      with (cwd (controller (construct (L := Gitignore.lib) Scenario.nestedDisk "/test/path")))
      at 1.
    rewrite Hfiles. vm_compute. reflexivity.
  - unfold Scenario.loaded. rewrite Hcontent; vm_compute; reflexivity.
Defined.

(** C8 at work on [brokenParentDisk], from [/test/path]. *)
Lemma C8_witness :
  In (readWarning "/test/.kilocodeignore" (ThrownError "Permission denied"))
     (snd (loadRooIgnore Scenario.brokenParentDisk
             (controller (construct (L := Gitignore.lib)
                            Scenario.brokenParentDisk "/test/path")))) /\
  rooIgnoreContent (Scenario.loaded Scenario.brokenParentDisk "/test/path")
  = Some ("# From: .kilocodeignore" ++ newline ++ "node_modules").
Proof.
  pose proof (C8_unreadable_file_skipped (L := Gitignore.lib)
                Scenario.brokenParentDisk
                (controller (construct Scenario.brokenParentDisk "/test/path"))
                "/test/.kilocodeignore" (ThrownError "Permission denied")) as H.
  cbv zeta in H.
  destruct H as (Hwarn & _ & _ & Hload).
  - vm_compute. left. reflexivity.
  - reflexivity.
  - split; [exact Hwarn|].
    destruct Hload as (_ & Hcontent & _).
    + intros m text. eexists. reflexivity.
    + unfold Scenario.loaded. rewrite Hcontent. vm_compute. reflexivity.
Defined.

(** The claim C9 as stated fails: in [linkedIgnoreFileDisk] the path
    [.kilocodeignore] lies under the root and is named like the ignore-file,
    restrictions are active, yet it is accessible, being a link to
    [shared.rules]. *)
Lemma C9_counterexample :
  rooIgnoreContent (Scenario.loaded Scenario.linkedIgnoreFileDisk "/workspace")
  = Some ("# From: .kilocodeignore" ++ newline ++ "secrets/**") /\
  spelledRelative Scenario.linkedIgnoreFileDisk "/workspace" ".kilocodeignore"
  = ".kilocodeignore" /\
  finalSegment ".kilocodeignore" = IGNORE_FILE_NAME /\
  validateAccess Scenario.linkedIgnoreFileDisk
    (Scenario.loaded Scenario.linkedIgnoreFileDisk "/workspace") ".kilocodeignore" = true.
Proof. vm_compute. repeat split. Qed.

(** C9 at work: with [secretsDisk] loaded, ignore-files at any depth are
    refused; and so are they in [aliasedDisk], where every real path leaves
    the root and the path as given is what the matcher sees. *)
Lemma C9_witness :
  validateAccess Scenario.secretsDisk
    (Scenario.loaded Scenario.secretsDisk "/workspace") "src/deep/.kilocodeignore" = false /\
  resolvedRelative Scenario.aliasedDisk
    (Scenario.loaded Scenario.aliasedDisk "/tmp/ws") "src/.kilocodeignore"
  = "../../private/tmp/ws/src/.kilocodeignore" /\
  validateAccess Scenario.aliasedDisk
    (Scenario.loaded Scenario.aliasedDisk "/tmp/ws") "src/.kilocodeignore" = false /\
  validateAccess Scenario.aliasedDisk
    (Scenario.loaded Scenario.aliasedDisk "/tmp/ws") ".kilocodeignore" = false.
Proof.
  split; [|split; [vm_compute; reflexivity|split]].
  - refine (proj2 (C9_self_hiding_rule (L := Gitignore.lib) (Laws := Gitignore_laws)
                     Scenario.secretsDisk
                     (controller (construct Scenario.secretsDisk "/workspace"))
                     ("# From: .kilocodeignore" ++ newline ++ "secrets/**") _) _ _ _ _);
      vm_compute; reflexivity.
  - refine (proj2 (C9_self_hiding_rule (L := Gitignore.lib) (Laws := Gitignore_laws)
                     Scenario.aliasedDisk
                     (controller (construct Scenario.aliasedDisk "/tmp/ws"))
                     ("# From: .kilocodeignore" ++ newline ++ "secrets/**") _) _ _ _ _);
      vm_compute; reflexivity.
  - refine (proj2 (C9_self_hiding_rule (L := Gitignore.lib) (Laws := Gitignore_laws)
                     Scenario.aliasedDisk
                     (controller (construct Scenario.aliasedDisk "/tmp/ws"))
                     ("# From: .kilocodeignore" ++ newline ++ "secrets/**") _) _ _ _ _);
      vm_compute; reflexivity.
Defined.

(** C10 at work: flags and a named parameter are passed over, the
    accessible file too. *)
Lemma C10_witness :
  (exists first rest,
     tokens "  grep -n key: src/app.ts  secrets/keys.json " = first :: rest /\
     In "secrets/keys.json" rest) /\
  In "secrets/keys.json"
     (tl (JS.splitWhiteSpace (JS.trim "  grep -n key: src/app.ts  secrets/keys.json "))) /\
  argumentTokenOf (JS.trim "  grep -n key: src/app.ts  secrets/keys.json ")
    "secrets/keys.json" /\
  JS.startsWith "secrets/keys.json" "-" = false /\
  JS.startsWith "secrets/keys.json" "/" = false /\
  JS.includes "secrets/keys.json" ":" = false /\
  validateAccess Scenario.secretsDisk
    (Scenario.loaded Scenario.secretsDisk "/workspace") "secrets/keys.json" = false.
Proof.
  apply (C10_blocked_token (L := Gitignore.lib) Scenario.secretsDisk
           (Scenario.loaded Scenario.secretsDisk "/workspace")
           "  grep -n key: src/app.ts  secrets/keys.json ").
  vm_compute. reflexivity.
Defined.

(** * Further properties of the controller *)

Section LoadProperties.

Context {L : IgnoreLib}.

(** A load replaces [rooIgnoreContent] and [ignoreInstance] by
    [loadResult] and leaves the other fields alone. *)
Lemma loadRooIgnore_result (fs : FileSystem) (this : RooIgnoreController) :
  loadRooIgnore fs this =
  ({| cwd := cwd this;
      ignoreInstance := snd (fst (loadResult fs (cwd this)));
      disposables := disposables this;
      rooIgnoreContent := fst (fst (loadResult fs (cwd this)));
      reloadTimeout := reloadTimeout this |},
   snd (loadResult fs (cwd this))).
Proof.
  unfold loadRooIgnore, loadResult.
  pose proof (loadRooIgnore_try_cases fs this) as Hc. cbn zeta in Hc. rewrite Hc.
  cbn zeta.
  destruct (flat_map (contribution fs (cwd this)) _) as [|b bs]; [reflexivity|].
  destruct (add ignore _) as [m1|e]; [|reflexivity].
  destruct (add m1 SELF_HIDING_RULE) as [m2|e]; reflexivity.
Qed.

End LoadProperties.

Section StateProperties.

Context {L : IgnoreLib}.

(** X1. What a load leaves in the combined content and in the matcher, and
    what it logs, depends on the disk and on [cwd] only: nothing of the
    content or of the matcher held before survives a load. *)
Theorem X1_load_forgets_previous_state (fs : FileSystem)
  (this this' : RooIgnoreController) :
  cwd this = cwd this' ->
  rooIgnoreContent (fst (loadRooIgnore fs this))
  = rooIgnoreContent (fst (loadRooIgnore fs this')) /\
  ignoreInstance (fst (loadRooIgnore fs this))
  = ignoreInstance (fst (loadRooIgnore fs this')) /\
  snd (loadRooIgnore fs this) = snd (loadRooIgnore fs this').
Proof.
  intros H. rewrite !loadRooIgnore_result. cbn [fst snd rooIgnoreContent ignoreInstance].
  now rewrite H.
Qed.

(** X2. A load changes no field but the combined content and the matcher,
    and a second load from the same disk changes nothing: it gives the same
    controller and logs the same lines. *)
Theorem X2_load_idempotent (fs : FileSystem) (this : RooIgnoreController) :
  cwd (fst (loadRooIgnore fs this)) = cwd this /\
  disposables (fst (loadRooIgnore fs this)) = disposables this /\
  reloadTimeout (fst (loadRooIgnore fs this)) = reloadTimeout this /\
  loadRooIgnore fs (fst (loadRooIgnore fs this)) = loadRooIgnore fs this.
Proof.
  rewrite (loadRooIgnore_result fs (fst (loadRooIgnore fs this))).
  rewrite !loadRooIgnore_result. cbn [fst snd cwd disposables reloadTimeout].
  repeat split.
Qed.

Lemma contribution_starts (fs : FileSystem) (cwd : string) (files : list string)
  (b : string) (bs : list string) :
  flat_map (contribution fs cwd) files = b :: bs ->
  exists rest, b = "# From: " ++ rest.
Proof.
  induction files as [|f files IH]; [discriminate|].
  cbn [flat_map]. unfold contribution at 1.
  destruct (readFile fs f) as [content|e]; [|exact IH].
  destruct (String.eqb (JS.trim content) ""); [exact IH|].
  cbn [app]. intros H. inversion H. eexists. reflexivity.
Qed.

(** X3. A combined content left by a load starts with a provenance line
    [# From: ]; in particular it is never the empty string, so after a load
    the content is defined exactly when restrictions are active. *)
Theorem X3_content_starts_with_provenance (fs : FileSystem)
  (this : RooIgnoreController) (text : string) :
  rooIgnoreContent (fst (loadRooIgnore fs this)) = Some text ->
  (exists rest, text = "# From: " ++ rest) /\
  JS.truthy (rooIgnoreContent (fst (loadRooIgnore fs this))) = true.
Proof.
  intros H.
  destruct (loadRooIgnore_active fs this text H) as (Ht & Hbuf & _).
  split; [|now rewrite H].
  unfold combinedText in Hbuf.
  destruct (flat_map (contribution fs (cwd this)) _) as [|b bs] eqn:Hb; [discriminate|].
  destruct (contribution_starts _ _ _ _ _ Hb) as [rest ->].
  inversion Hbuf. unfold JS.join. cbn [String.concat].
  destruct bs; cbn [String.append]; eauto.
Qed.

(** X4. Two candidate paths with the same real path get the same verdict,
    provided that real path does not leave the workspace root: neither a
    different spelling of a path (through [.] and [..] segments, or absolute
    instead of relative) nor a symbolic link changes what [validateAccess]
    answers. *)
Theorem X4_same_real_path_same_verdict (fs : FileSystem)
  (this : RooIgnoreController) (p q : string) :
  realPathOf fs this p = realPathOf fs this q ->
  JS.startsWith (resolvedRelative fs this p) "../" = false ->
  Path.isAbsolute (resolvedRelative fs this p) = false ->
  validateAccess fs this p = validateAccess fs this q.
Proof.
  intros Hreal Hup Habs.
  assert (resolvedRelative fs this q = resolvedRelative fs this p) as Hrel.
  { unfold resolvedRelative. now rewrite Hreal. }
  unfold validateAccess, validateAccess_try, queriedPath. cbn zeta.
  now rewrite Hrel, Hup, Habs.
Qed.

(** X5. While the combined content is [undefined] or empty, as it is from
    construction until the first load, the controller restricts nothing:
    [validateAccess] is [true], [validateCommand] and [getInstructions] are
    [undefined], and [filterPaths] returns its input unchanged. *)
Theorem X5_inactive_controller_is_transparent (fs : FileSystem)
  (this : RooIgnoreController) :
  JS.truthy (rooIgnoreContent this) = false ->
  (forall p, validateAccess fs this p = true) /\
  (forall command, validateCommand fs this command = None) /\
  (forall paths, filterPaths fs this paths = paths) /\
  getInstructions this = None.
Proof.
  intros H.
  assert (forall p, validateAccess fs this p = true) as Hall.
  { intros p. now apply validateAccess_inactive. }
  split; [exact Hall|]. split; [|split].
  - intros command. unfold validateCommand. now rewrite H.
  - intros paths. rewrite filterPaths_spec.
    induction paths as [|p rest IH]; [reflexivity|].
    cbn [filter]. now rewrite Hall, IH.
  - unfold getInstructions. now rewrite H.
Qed.

Lemma validateCommand_tokens (fs : FileSystem) (this : RooIgnoreController)
  (command : string) :
  validateCommand fs this command =
  match tokens command with
  | [] => None
  | first :: rest =>
      if JS.arrayIncludes fileReadingCommands (JS.toLowerCase first)
      then find (fun arg => negb (skippedToken arg) && negb (validateAccess fs this arg))
                rest
      else None
  end.
Proof.
  rewrite validateCommand_spec, parts_tokens. cbn zeta.
  now destruct (tokens command).
Qed.

(** X6. The verdict on a command depends on the command only through its
    first token taken in lower case and its later tokens: the amount and
    kind of white space, and the case of the command name, do not matter. *)
Theorem X6_command_verdict_by_tokens (fs : FileSystem) (this : RooIgnoreController)
  (command command' first first' : string) (rest : list string) :
  tokens command = first :: rest ->
  tokens command' = first' :: rest ->
  JS.toLowerCase first = JS.toLowerCase first' ->
  validateCommand fs this command = validateCommand fs this command'.
Proof.
  intros H H' Hlow. rewrite !validateCommand_tokens, H, H'. now rewrite Hlow.
Qed.

(** X7. The command scan never looks at a token that starts with [-] or
    [/] or contains [:]: a command all of whose arguments are of that kind,
    absolute paths included, passes, even when [validateAccess] refuses one
    of them. *)
Theorem X7_skipped_arguments_pass (fs : FileSystem) (this : RooIgnoreController)
  (command : string) :
  (forall t, In t (tl (tokens command)) -> skippedToken t = true) ->
  validateCommand fs this command = None.
Proof.
  intros H. rewrite validateCommand_tokens.
  destruct (tokens command) as [|first rest]; [reflexivity|].
  destruct (JS.arrayIncludes fileReadingCommands (JS.toLowerCase first)); [|reflexivity].
  cbn [tl] in H. induction rest as [|t rest IH]; [reflexivity|].
  cbn [find]. rewrite (H t (or_introl eq_refl)). cbn [negb andb].
  apply IH. intros t' Ht'. apply H. now right.
Qed.

(** X8. When a file-reading command passes, every argument the scan does
    look at is accessible: each later token that neither starts with [-] or
    [/] nor contains [:] satisfies [validateAccess]. *)
Theorem X8_passed_command_arguments_accessible (fs : FileSystem)
  (this : RooIgnoreController) (command first : string) (rest : list string) :
  tokens command = first :: rest ->
  JS.arrayIncludes fileReadingCommands (JS.toLowerCase first) = true ->
  validateCommand fs this command = None ->
  forall t, In t rest -> skippedToken t = false -> validateAccess fs this t = true.
Proof.
  intros Htok Hread Hnone t Hin Hskip.
  rewrite validateCommand_tokens, Htok, Hread in Hnone.
  pose proof (find_none _ _ Hnone t Hin) as Hf. cbn beta in Hf.
  rewrite Hskip in Hf. cbn [negb andb] in Hf.
  now apply negb_false_iff in Hf.
Qed.

(** X9. [filterPaths] works path by path: filtering a batch in two parts
    gives the two results one after the other, filtering a result again
    changes nothing, and the call of the controller's own [validateAccess]
    never reaches the [catch] block, so nothing is logged. *)
Theorem X9_filterPaths_composes (fs : FileSystem) (this : RooIgnoreController)
  (paths paths' : list string) :
  filterPaths fs this (paths ++ paths')
  = (filterPaths fs this paths ++ filterPaths fs this paths')%list /\
  filterPaths fs this (filterPaths fs this paths) = filterPaths fs this paths /\
  snd (filterPathsWith (fun p => Ok (validateAccess fs this p)) paths) = [].
Proof.
  rewrite !filterPaths_spec. split; [apply filter_app|]. split.
  - induction paths as [|p rest IH]; [reflexivity|].
    cbn [filter]. destruct (validateAccess fs this p) eqn:Hp; [|exact IH].
    cbn [filter]. now rewrite Hp, IH.
  - unfold filterPathsWith. now rewrite mapAllowed_total.
Qed.

(** X10. After a load, [getInstructions] is defined exactly when the load
    left a combined content, and then it reads: the fixed header, the very
    text the matcher was fed, a newline and the rule [**/.kilocodeignore]
    that the matcher was fed last. *)
Theorem X10_instructions_show_loaded_patterns (fs : FileSystem)
  (this : RooIgnoreController) :
  (getInstructions (fst (loadRooIgnore fs this)) = None <->
   rooIgnoreContent (fst (loadRooIgnore fs this)) = None) /\
  forall s,
    getInstructions (fst (loadRooIgnore fs this)) = Some s ->
    exists text m1,
      s = instructionsHeader ++ text ++ newline ++ SELF_HIDING_RULE /\
      rooIgnoreContent (fst (loadRooIgnore fs this)) = Some text /\
      add ignore text = Ok m1 /\
      add m1 SELF_HIDING_RULE = Ok (ignoreInstance (fst (loadRooIgnore fs this))).
Proof.
  unfold getInstructions.
  destruct (rooIgnoreContent (fst (loadRooIgnore fs this))) as [text|] eqn:Hc.
  - destruct (loadRooIgnore_active fs this text Hc) as (Ht & _ & m1 & H1 & H2).
    rewrite Ht. cbn [negb]. split; [split; discriminate|].
    intros s Hs. inversion Hs. exists text, m1. now repeat split.
  - cbn [JS.truthy negb]. split; [split; reflexivity|]. discriminate.
Qed.

End StateProperties.

(** ** The watcher, the timer and disposal *)

Section WorldProperties.

Context {L : IgnoreLib}.

Lemma clearTimeout_self (t : Timeout) : clearTimeout t [t] = [].
Proof. unfold clearTimeout. cbn [filter]. now rewrite Nat.eqb_refl. Qed.

Lemma clearTimeout_length (t : Timeout) (timers : list Timeout) :
  List.length (clearTimeout t timers) <= List.length timers.
Proof. apply filter_length_le. Qed.

Lemma clearTimeout_shrinks (t : Timeout) (timers : list Timeout) :
  existsb (Nat.eqb t) timers = true ->
  List.length (clearTimeout t timers) < List.length timers.
Proof.
  induction timers as [|t' rest IH]; [discriminate|].
  cbn [existsb clearTimeout filter List.length].
  destruct (Nat.eqb t t') eqn:E.
  - intros _. rewrite Nat.eqb_sym, E. cbn [negb].
    pose proof (clearTimeout_length t rest). unfold clearTimeout in *. lia.
  - rewrite Nat.eqb_sym, E. cbn [negb orb List.length]. intros H.
    apply IH in H. unfold clearTimeout in *. lia.
Qed.

Lemma reloadCallback_fields (w : World) :
  reloadCallback w =
  {| controller := fst (loadRooIgnore (disk w) (controller w)); disk := disk w;
     subscribed := subscribed w; armed := armed w; nextTimeout := nextTimeout w;
     console := (console w ++ snd (loadRooIgnore (disk w) (controller w)))%list;
     loads := S (loads w) |}.
Proof. unfold reloadCallback. now destruct (loadRooIgnore _ _). Qed.

Lemma initialize_fields (w : World) :
  step w CallInitialize =
  {| controller := fst (loadRooIgnore (disk w) (controller w)); disk := disk w;
     subscribed := subscribed w; armed := armed w; nextTimeout := nextTimeout w;
     console := (console w ++ snd (loadRooIgnore (disk w) (controller w)))%list;
     loads := S (loads w) |}.
Proof. cbn [step]. unfold initialize. now destruct (loadRooIgnore _ _). Qed.

Lemma loadRooIgnore_reloadTimeout (fs : FileSystem) (this : RooIgnoreController) :
  reloadTimeout (fst (loadRooIgnore fs this)) = reloadTimeout this.
Proof. now rewrite loadRooIgnore_result. Qed.

Lemma loadRooIgnore_disposables (fs : FileSystem) (this : RooIgnoreController) :
  disposables (fst (loadRooIgnore fs this)) = disposables this.
Proof. now rewrite loadRooIgnore_result. Qed.

(** A notification that is listened to, in a world that keeps the timer
    invariant: the old timer goes, a new one is armed. *)
Lemma fileEvent_rearms (w : World) (kind : Disposable) (fs' : FileSystem) :
  timerInvariant w -> listening w kind = true ->
  step w (FileEvent kind fs') =
  {| controller := set_reloadTimeout (Some (nextTimeout w)) (controller w);
     disk := fs'; subscribed := subscribed w; armed := [nextTimeout w];
     nextTimeout := S (nextTimeout w); console := console w; loads := loads w |}.
Proof.
  intros Hinv Hlisten. cbn [step]. unfold listening in *. cbn [subscribed].
  rewrite Hlisten. unfold debouncedReload. cbn [controller armed nextTimeout disk
    subscribed console loads].
  destruct Hinv as [Hnone|(t & Ht & Harmed)].
  - rewrite Hnone. now destruct (reloadTimeout (controller w)).
  - now rewrite Ht, Harmed, clearTimeout_self.
Qed.

Lemma step_timerInvariant (w : World) (ev : Event) :
  timerInvariant w -> timerInvariant (step w ev).
Proof.
  intros Hinv. destruct ev as [|kind fs'|t|].
  - rewrite initialize_fields. unfold timerInvariant in *.
    cbn [controller armed]. now rewrite loadRooIgnore_reloadTimeout.
  - destruct (listening w kind) eqn:Hl.
    + rewrite (fileEvent_rearms w kind fs' Hinv Hl). right.
      exists (nextTimeout w). now split.
    + cbn [step]. unfold listening in *. cbn [subscribed]. rewrite Hl. exact Hinv.
  - cbn [step]. destruct (existsb (Nat.eqb t) (armed w)) eqn:He; [|exact Hinv].
    rewrite reloadCallback_fields. left. cbn [armed].
    destruct Hinv as [Hnone|(t' & _ & Harmed)].
    + rewrite Hnone in He. discriminate.
    + rewrite Harmed in *. cbn [existsb] in He. rewrite orb_false_r in He.
      apply Nat.eqb_eq in He. subst. apply clearTimeout_self.
  - exact Hinv.
Qed.

Lemma run_timerInvariant (w : World) (evs : list Event) :
  timerInvariant w -> timerInvariant (run w evs).
Proof.
  revert w. induction evs as [|ev evs IH]; intros w H; [exact H|].
  apply IH. now apply step_timerInvariant.
Qed.

(** X11. Whatever happens to a controller after its construction, at most
    one timer is armed at any time, and an armed timer is the one held in
    [reloadTimeout]. *)
Theorem X11_one_timer_at_most (fs : FileSystem) (cwd : string) (evs : list Event) :
  List.length (armed (run (construct fs cwd) evs)) <= 1 /\
  forall t,
    In t (armed (run (construct fs cwd) evs)) ->
    reloadTimeout (controller (run (construct fs cwd) evs)) = Some t.
Proof.
  assert (timerInvariant (run (construct fs cwd) evs)) as [Hnone|(t & Ht & Harmed)].
  { apply run_timerInvariant. now left. }
  - rewrite Hnone. split; [cbn; lia|intros t []].
  - rewrite Harmed. split; [cbn; lia|].
    intros t' [<-|[]]. exact Ht.
Qed.

Lemma listening_all (w : World) (kind : Disposable) :
  subscribed w = setupFileWatcher -> listening w kind = true.
Proof. unfold listening. intros ->. now destruct kind. Qed.

Lemma burst_run (burst : list (Disposable * FileSystem)) (kind : Disposable)
  (fs' : FileSystem) (w : World) :
  timerInvariant w -> subscribed w = setupFileWatcher ->
  run w (fileEvents (burst ++ [(kind, fs')])) =
  {| controller :=
       set_reloadTimeout (Some (nextTimeout w + List.length burst)) (controller w);
     disk := fs'; subscribed := subscribed w;
     armed := [nextTimeout w + List.length burst];
     nextTimeout := S (nextTimeout w + List.length burst);
     console := console w; loads := loads w |}.
Proof.
  revert w. induction burst as [|[k0 f0] burst IH]; intros w Hinv Hsub.
  - cbn [app fileEvents map run fold_left fst snd List.length].
    rewrite Nat.add_0_r. apply fileEvent_rearms; [exact Hinv|now apply listening_all].
  - cbn [app fileEvents map run fold_left fst snd List.length].
    pose proof (fileEvent_rearms w k0 f0 Hinv (listening_all w k0 Hsub)) as Hstep.
    rewrite Hstep.
    match goal with
    | |- fold_left step ?evs ?w1 = _ =>
        change (run w1 (fileEvents (burst ++ [(kind, fs')])) =
                {| controller :=
                     set_reloadTimeout (Some (nextTimeout w + S (List.length burst)))
                       (controller w);
                   disk := fs'; subscribed := subscribed w;
                   armed := [nextTimeout w + S (List.length burst)];
                   nextTimeout := S (nextTimeout w + S (List.length burst));
                   console := console w; loads := loads w |});
        rewrite (IH w1)
    end.
    + cbn [controller nextTimeout subscribed console loads].
      rewrite Nat.add_succ_r. reflexivity.
    + right. exists (nextTimeout w). now split.
    + exact Hsub.
Qed.

(** X12. Debouncing: a burst of one or more change notifications reaching a
    listening controller leaves exactly one timer armed, runs no load and
    leaves the content alone; when that timer elapses, exactly one load
    runs, from the disk as the last notification left it. *)
Theorem X12_burst_gives_one_reload (w : World)
  (burst : list (Disposable * FileSystem)) (kind : Disposable) (fs' : FileSystem) :
  timerInvariant w -> subscribed w = setupFileWatcher ->
  let t := nextTimeout w + List.length burst in
  let w' := run w (fileEvents (burst ++ [(kind, fs')])) in
  armed w' = [t] /\
  loads w' = loads w /\
  controller w' = set_reloadTimeout (Some t) (controller w) /\
  armed (step w' (TimerElapses t)) = [] /\
  loads (step w' (TimerElapses t)) = S (loads w) /\
  controller (step w' (TimerElapses t))
  = fst (loadRooIgnore fs' (set_reloadTimeout (Some t) (controller w))).
Proof.
  intros Hinv Hsub. cbn zeta. rewrite (burst_run burst kind fs' w Hinv Hsub).
  cbn [armed loads controller]. split; [reflexivity|]. split; [reflexivity|].
  split; [reflexivity|].
  cbn [step armed existsb]. rewrite Nat.eqb_refl. cbn [orb].
  rewrite reloadCallback_fields, clearTimeout_self.
  cbn [armed loads controller disk]. repeat split.
Qed.

Lemma filter_all_true {A : Type} (l : list A) : filter (fun _ => true) l = l.
Proof. induction l as [|a l IH]; [reflexivity|]. cbn [filter]. now rewrite IH. Qed.

(** X13. [dispose] can be called again without effect, and it leaves the
    combined content and the matcher in place: every verdict of
    [validateAccess] and of [validateCommand] is the same after disposal as
    before. *)
Theorem X13_dispose_idempotent (w : World) :
  dispose (dispose w) = dispose w /\
  (forall fs p,
     validateAccess fs (controller (dispose w)) p = validateAccess fs (controller w) p) /\
  (forall fs command,
     validateCommand fs (controller (dispose w)) command
     = validateCommand fs (controller w) command).
Proof.
  split; [|split].
  - unfold dispose. cbn [controller subscribed disposables set_disposables
      armed nextTimeout console loads disk existsb negb].
    now rewrite filter_all_true.
  - reflexivity.
  - intros fs command. unfold validateCommand.
    cbn [dispose controller set_disposables rooIgnoreContent].
    destruct (JS.truthy (rooIgnoreContent (controller w))); [|reflexivity].
    cbn [negb]. destruct (JS.arrayIncludes fileReadingCommands _); [|reflexivity].
    induction (tl (JS.splitWhiteSpace (JS.trim command))) as [|arg rest IH];
      [reflexivity|].
    cbn [scanArguments]. now rewrite IH.
Qed.

Lemma quiet_step (w : World) (ev : Event) :
  subscribed w = [] -> isCallInitialize ev = false ->
  subscribed (step w ev) = [] /\
  loads (step w ev) + List.length (armed (step w ev))
  <= loads w + List.length (armed w).
Proof.
  intros Hsub Hev. destruct ev as [|kind fs'|t|]; [discriminate| | |].
  - cbn [step]. unfold listening. cbn [subscribed]. rewrite Hsub. cbn [existsb andb].
    cbn [subscribed loads armed]. split; [first [exact Hsub|reflexivity]|lia].
  - cbn [step]. destruct (existsb (Nat.eqb t) (armed w)) eqn:He.
    + rewrite reloadCallback_fields. cbn [subscribed loads armed].
      split; [first [exact Hsub|reflexivity]|]. pose proof (clearTimeout_shrinks t _ He). lia.
    + split; [first [exact Hsub|reflexivity]|lia].
  - cbn [step dispose subscribed loads armed]. rewrite Hsub. split; [reflexivity|lia].
Qed.

(** X14. After [dispose], with its subscriptions held in [disposables] as
    [setupFileWatcher] leaves them, and as long as [initialize] is not
    called again, nothing starts a load but the timers still armed, each at
    most once: the loads run from then on and the timers still pending never
    exceed, together, the timers armed at disposal. *)
Theorem X14_loads_after_dispose_bounded (w : World) (evs : list Event) :
  subscriptionsHeld w ->
  forallb (fun ev => negb (isCallInitialize ev)) evs = true ->
  loads (run (dispose w) evs) + List.length (armed (run (dispose w) evs))
  <= loads w + List.length (armed w).
Proof.
  intros Hheld Hevs.
  destruct (dispose_silences_watcher w OnDidChange (disk w) Hheld) as (Hsub & _).
  change (loads w + List.length (armed w))
    with (loads (dispose w) + List.length (armed (dispose w))).
  generalize dependent (dispose w). clear w Hheld.
  induction evs as [|ev evs IH]; intros w Hsub; [cbn; lia|].
  cbn [forallb] in Hevs. apply andb_prop in Hevs as [Hev Hevs].
  apply negb_true_iff in Hev.
  destruct (quiet_step w ev Hsub Hev) as [Hsub' Hle].
  cbn [run fold_left]. specialize (IH Hevs (step w ev) Hsub').
  unfold run in IH. lia.
Qed.

Lemma step_potential (w : World) (ev : Event) :
  loads (step w ev) + List.length (armed (step w ev))
  <= loads w + List.length (armed w) + (if isTrigger ev then 1 else 0).
Proof.
  destruct ev as [|kind fs'|t|].
  - rewrite initialize_fields. cbn [loads armed isTrigger]. lia.
  - cbn [step isTrigger]. unfold listening. cbn [subscribed].
    destruct (existsb (Disposable_eqb kind) (subscribed w)
              && existsb (Disposable_eqb FileWatcher) (subscribed w)).
    + unfold debouncedReload. cbn [loads armed controller].
      rewrite length_app. cbn [List.length].
      destruct (reloadTimeout (controller w)) as [t|]; [|lia].
      pose proof (clearTimeout_length t (armed w)). lia.
    + cbn [loads armed]. lia.
  - cbn [step isTrigger]. destruct (existsb (Nat.eqb t) (armed w)) eqn:He; [|lia].
    rewrite reloadCallback_fields. cbn [loads armed].
    pose proof (clearTimeout_shrinks t _ He). lia.
  - cbn [step dispose loads armed isTrigger]. lia.
Qed.

(** X15. A load never runs unprompted: at any time after construction, the
    loads run so far and the timers still armed are together no more than
    the calls of [initialize] and the change notifications received. *)
Theorem X15_loads_bounded_by_triggers (fs : FileSystem) (cwd : string)
  (evs : list Event) :
  loads (run (construct fs cwd) evs)
  + List.length (armed (run (construct fs cwd) evs))
  <= List.length (filter isTrigger evs).
Proof.
  change (List.length (filter isTrigger evs))
    with (loads (construct fs cwd) + List.length (armed (construct fs cwd))
          + List.length (filter isTrigger evs)).
  generalize (construct fs cwd).
  induction evs as [|ev evs IH]; intros w; [cbn; lia|].
  cbn [run fold_left filter]. specialize (IH (step w ev)).
  pose proof (step_potential w ev) as Hstep. unfold run in IH.
  destruct (isTrigger ev); cbn [List.length]; lia.
Qed.

End WorldProperties.

(** ** The root of the filesystem *)

Section RootProperties.

Context {L : IgnoreLib}.

Lemma ancestorsUpTo_continue (n : nat) (p d : string) :
  In d (ancestorsUpTo n p) -> walkContinues d = true.
Proof.
  revert p. induction n as [|n IH]; intros p; [intros []|].
  cbn [ancestorsUpTo]. destruct (walkContinues p) eqn:Hp; [|intros []].
  intros [<-|Hin]; [exact Hp|now apply (IH _ Hin)].
Qed.

(** X16. The upward walk stops before the root of the filesystem: the root
    directory is never among the directories visited, so a controller whose
    [cwd] resolves to the root finds no ignore-file, whatever the disk
    holds, and restricts nothing. *)
Theorem X16_root_is_never_visited (fs : FileSystem) (this : RooIgnoreController) :
  (forall dir, ~ In "/" (ancestors dir)) /\
  (Path.resolve (processCwd fs) [cwd this] = "/" ->
   findKilocodeIgnoreFiles fs (cwd this) = [] /\
   rooIgnoreContent (fst (loadRooIgnore fs this)) = None /\
   forall fs' p, validateAccess fs' (fst (loadRooIgnore fs this)) p = true).
Proof.
  split.
  - intros dir Hin. apply ancestorsUpTo_continue in Hin. discriminate.
  - intros Hroot.
    assert (findKilocodeIgnoreFiles fs (cwd this) = []) as Hnone.
    { unfold findKilocodeIgnoreFiles. now rewrite Hroot. }
    assert (rooIgnoreContent (fst (loadRooIgnore fs this)) = None) as Hcontent.
    { rewrite loadRooIgnore_result. unfold loadResult. now rewrite Hnone. }
    split; [exact Hnone|]. split; [exact Hcontent|].
    intros fs' p. now apply validateAccess_sentinel.
Qed.

End RootProperties.

(** ** The strategy tester *)

(** X17. [parseCompletion] never returns a completion: it returns [null]
    when the parser finds no suggestion, when it finds some (the code then
    raises and catches its own error) and when a call raises; a warning is
    logged in every case but the first. *)
Theorem X17_parseCompletion_returns_null
  (hasSuggestions : string -> string -> result bool)
  (originalContent xmlResponse : string) :
  fst (StrategyTester.parseCompletion hasSuggestions originalContent xmlResponse) = None /\
  (snd (StrategyTester.parseCompletion hasSuggestions originalContent xmlResponse) = []
   <-> hasSuggestions originalContent xmlResponse = Ok false).
Proof.
  unfold StrategyTester.parseCompletion.
  destruct (hasSuggestions originalContent xmlResponse) as [[|]|e]; cbn.
  - split; [reflexivity|]. split; discriminate.
  - split; [reflexivity|]. split; reflexivity.
  - split; [reflexivity|]. split; discriminate.
Qed.

Section CreateContext.

Import StrategyTester.

Variable marker : string.
Hypothesis marker_not_empty : marker <> "".
Hypothesis marker_on_one_line : noLineFeed marker = true.

Lemma splitChar_not_nil (sep : ascii) (s : string) : JS.splitChar sep s <> [].
Proof.
  destruct s as [|c s']; cbn [JS.splitChar]; [discriminate|].
  destruct (Ascii.eqb c sep); [discriminate|].
  destruct (JS.splitChar sep s'); discriminate.
Qed.

Lemma startsWith_empty_marker : JS.startsWith "" marker = false.
Proof. destruct marker; [now destruct marker_not_empty|reflexivity]. Qed.

Lemma indexOf_empty_line : indexOf "" marker = None.
Proof. cbn [indexOf]. now rewrite startsWith_empty_marker. Qed.

(** Whether a text starts with a word that holds no line feed is decided by
    its first line. *)
Lemma startsWith_first_line (sub s : string) :
  noLineFeed sub = true ->
  JS.startsWith s sub = JS.startsWith (hd "" (JS.splitChar "010" s)) sub.
Proof.
  revert s. induction sub as [|m ms IH]; intros s Hsub; [reflexivity|].
  cbn [noLineFeed] in Hsub. apply andb_prop in Hsub as [Hm Hms].
  apply negb_true_iff in Hm.
  destruct s as [|c s']; [reflexivity|].
  cbn [JS.splitChar].
  destruct (Ascii.eqb c "010") eqn:Hc.
  - cbn [hd JS.startsWith]. apply Ascii.eqb_eq in Hc. subst c.
    rewrite Ascii.eqb_sym, Hm. reflexivity.
  - destruct (JS.splitChar "010" s') as [|t ts] eqn:Hr.
    { now destruct (splitChar_not_nil "010" s'). }
    cbn [hd JS.startsWith]. rewrite (IH s' Hms), Hr. reflexivity.
Qed.

Lemma startsWith_drop (s sub : string) :
  JS.startsWith s sub = true -> s = sub ++ drop (String.length sub) s.
Proof.
  revert s. induction sub as [|m ms IH]; intros s H; [now destruct s|].
  destruct s as [|c s']; [discriminate|].
  cbn [JS.startsWith] in H. apply andb_prop in H as [Hc Hs].
  apply Ascii.eqb_eq in Hc. subst c.
  cbn [String.length drop String.append]. f_equal. now apply IH.
Qed.

Lemma endPosition_line_feed (p : string) :
  endPosition (String "010" p) = (S (fst (endPosition p)), snd (endPosition p)).
Proof.
  unfold endPosition. cbn [JS.splitChar Ascii.eqb Bool.eqb]. cbn zeta.
  destruct (JS.splitChar "010" p) as [|t ts] eqn:Hr.
  { now destruct (splitChar_not_nil "010" p). }
  cbn [fst snd List.length last]. f_equal. lia.
Qed.

Lemma endPosition_char (c : ascii) (p : string) :
  Ascii.eqb c "010" = false ->
  endPosition (String c p)
  = (fst (endPosition p),
     if (fst (endPosition p) =? 0)%nat then S (snd (endPosition p))
     else snd (endPosition p)).
Proof.
  intros Hc. unfold endPosition. cbn [JS.splitChar]. rewrite Hc. cbn zeta.
  destruct (JS.splitChar "010" p) as [|t ts] eqn:Hr.
  { now destruct (splitChar_not_nil "010" p). }
  cbn [fst snd List.length]. f_equal.
  destruct ts as [|t' ts']; reflexivity.
Qed.

Lemma findMarkerOpt_from (lines : list string) (i l c : nat) :
  findMarkerOpt marker lines i = Some (l, c) -> i <= l.
Proof.
  revert i. induction lines as [|line rest IH]; intros i; [discriminate|].
  cbn [findMarkerOpt]. destruct (indexOf line marker).
  - intros H. inversion H. lia.
  - intros H. apply IH in H. lia.
Qed.

Lemma findMarker_opt (lines : list string) (i : nat) :
  findMarker marker lines i =
  match findMarkerOpt marker lines i with
  | Some position => position
  | None => (0, 0)
  end.
Proof.
  revert i. induction lines as [|line rest IH]; intros i; [reflexivity|].
  cbn [findMarker findMarkerOpt]. destruct (indexOf line marker); [reflexivity|apply IH].
Qed.

Lemma indexOf_unfold (s sub : string) :
  indexOf s sub =
  if JS.startsWith s sub then Some 0
  else
    match s with
    | EmptyString => None
    | String _ s' => option_map S (indexOf s' sub)
    end.
Proof. now destruct s. Qed.

(** The search line by line and the search in the whole text agree. *)
Lemma marker_search (code : string) (i : nat) :
  match indexOf code marker with
  | None =>
      findMarkerOpt marker (JS.splitChar "010" code) i = None /\
      removeFirst code marker = code
  | Some k =>
      exists before after,
        code = before ++ marker ++ after /\
        String.length before = k /\
        removeFirst code marker = before ++ after /\
        findMarkerOpt marker (JS.splitChar "010" code) i
        = Some (i + fst (endPosition before), snd (endPosition before))
  end.
Proof.
  revert i. induction code as [|c code' IH]; intros i.
  - rewrite indexOf_empty_line. cbn [JS.splitChar findMarkerOpt removeFirst].
    rewrite indexOf_empty_line, startsWith_empty_marker. now split.
  - cbn [indexOf removeFirst].
    destruct (JS.startsWith (String c code') marker) eqn:Hs.
    + exists "", (drop (String.length marker) (String c code')).
      split; [now apply startsWith_drop|]. split; [reflexivity|].
      split; [reflexivity|].
      rewrite (startsWith_first_line marker _ marker_on_one_line) in Hs.
      destruct (JS.splitChar "010" (String c code')) as [|line rest] eqn:Hr.
      { now destruct (splitChar_not_nil "010" (String c code')). }
      cbn [hd] in Hs. cbn [findMarkerOpt]. rewrite indexOf_unfold, Hs.
      cbn. now rewrite Nat.add_0_r.
    + rewrite (startsWith_first_line marker _ marker_on_one_line) in Hs.
      cbn [JS.splitChar] in *.
      destruct (Ascii.eqb c "010") eqn:Hc.
      * apply Ascii.eqb_eq in Hc. subst c.
        specialize (IH (S i)). cbn [findMarkerOpt]. rewrite indexOf_empty_line.
        destruct (indexOf code' marker) as [k'|]; cbn [option_map].
        -- destruct IH as (before & after & Hcode & Hlen & Hrem & Hfind).
           exists (String "010" before), after.
           rewrite Hfind, Hrem, endPosition_line_feed. cbn [fst snd String.length].
           split; [now rewrite Hcode|]. split; [now rewrite Hlen|].
           split; [reflexivity|]. f_equal. f_equal. lia.
        -- destruct IH as [Hfind Hrem]. now rewrite Hfind, Hrem.
      * specialize (IH i).
        destruct (JS.splitChar "010" code') as [|t ts] eqn:Hr.
        { now destruct (splitChar_not_nil "010" code'). }
        cbn [hd] in Hs. cbn [findMarkerOpt] in *.
        rewrite (indexOf_unfold (String c t)), Hs.
        destruct (indexOf code' marker) as [k'|]; cbn [option_map].
        -- destruct IH as (before & after & Hcode & Hlen & Hrem & Hfind).
           exists (String c before), after.
           rewrite Hrem, (endPosition_char c before Hc). cbn [fst snd String.length].
           split; [now rewrite Hcode|]. split; [now rewrite Hlen|].
           split; [reflexivity|].
           destruct (indexOf t marker) as [m|]; cbn [option_map].
           ++ injection Hfind as Hl Hcol.
              assert (fst (endPosition before) = 0) as ->
                by (unfold endPosition; cbn [fst]; lia).
              cbn [Nat.eqb]. now rewrite Nat.add_0_r, Hcol.
           ++ rewrite Hfind.
              pose proof (findMarkerOpt_from _ _ _ _ Hfind) as Hle.
              destruct (fst (endPosition before)); [lia|reflexivity].
        -- destruct IH as [Hfind Hrem]. rewrite Hrem. split; [|reflexivity].
           destruct (indexOf t marker); [discriminate|exact Hfind].
Qed.

End CreateContext.

(** X18. [createContext] puts the cursor where the marker first stands,
    for a marker that is not empty and holds no line feed: when the code
    holds the marker, the document is the code with that first occurrence
    taken out and the cursor is the line and column at which the text before
    it ends; when the code holds no marker, the document is the code and the
    cursor is at line 0, column 0. *)
Theorem X18_createContext_cursor_at_marker (marker code : string) :
  marker <> "" -> StrategyTester.noLineFeed marker = true ->
  match StrategyTester.indexOf code marker with
  | None =>
      StrategyTester.createContext marker code
      = {| StrategyTester.documentText := code;
           StrategyTester.cursorLine := 0;
           StrategyTester.cursorCharacter := 0 |}
  | Some k =>
      exists before after,
        code = before ++ marker ++ after /\
        String.length before = k /\
        StrategyTester.documentText (StrategyTester.createContext marker code)
        = before ++ after /\
        (StrategyTester.cursorLine (StrategyTester.createContext marker code),
         StrategyTester.cursorCharacter (StrategyTester.createContext marker code))
        = StrategyTester.endPosition before
  end.
Proof.
  intros Hne Hline. pose proof (marker_search marker Hne Hline code 0) as H.
  unfold StrategyTester.createContext. rewrite (findMarker_opt marker).
  destruct (StrategyTester.indexOf code marker) as [k|].
  - destruct H as (before & after & Hcode & Hlen & Hrem & Hfind).
    exists before, after. rewrite Hfind, Hrem. cbn.
    repeat split; assumption.
  - destruct H as [Hfind Hrem]. now rewrite Hfind, Hrem.
Qed.

(** X19. The workspace root itself is always accessible: for a candidate
    whose real path is [cwd], the path handed to the matcher is empty, the
    matcher's path check raises on it, and [validateAccess] returns [true]
    whatever the patterns. *)
Theorem X19_workspace_root_accessible {L : IgnoreLib} {Laws : IgnoreLaws L}
  (fs : FileSystem) (this : RooIgnoreController) (p : string) :
  realPathOf fs this p = cwd this ->
  queriedPath fs this p = "" /\ validateAccess fs this p = true.
Proof.
  intros Hreal.
  assert (resolvedRelative fs this p = "") as Hrel.
  { unfold resolvedRelative, Path.relative. now rewrite Hreal, String.eqb_refl. }
  assert (queriedPath fs this p = "") as Hq.
  { unfold queriedPath. cbn zeta. now rewrite Hrel. }
  split; [exact Hq|].
  unfold validateAccess.
  destruct (JS.truthy (rooIgnoreContent this)); [|reflexivity]. cbn [negb].
  unfold validateAccess_try. rewrite Hq.
  now destruct (ignores_invalid (ignoreInstance this) "" eq_refl) as [e ->].
Qed.

(** * The further properties at work *)

Lemma X1_witness :
  rooIgnoreContent
    (fst (loadRooIgnore Scenario.secretsDisk
            (Scenario.loaded Scenario.rewrittenDisk "/workspace")))
  = rooIgnoreContent (fst (loadRooIgnore Scenario.secretsDisk Cases.fresh)) /\
  ignoreInstance
    (fst (loadRooIgnore Scenario.secretsDisk
            (Scenario.loaded Scenario.rewrittenDisk "/workspace")))
  = ignoreInstance (fst (loadRooIgnore Scenario.secretsDisk Cases.fresh)) /\
  snd (loadRooIgnore Scenario.secretsDisk
         (Scenario.loaded Scenario.rewrittenDisk "/workspace"))
  = snd (loadRooIgnore Scenario.secretsDisk Cases.fresh).
Proof.
  apply (X1_load_forgets_previous_state (L := Gitignore.lib)). reflexivity.
Defined.

Lemma X3_witness :
  (exists rest,
     "# From: .kilocodeignore" ++ newline ++ "secrets/**" = "# From: " ++ rest) /\
  JS.truthy (rooIgnoreContent (fst (loadRooIgnore Scenario.secretsDisk Cases.fresh)))
  = true.
Proof.
  apply (X3_content_starts_with_provenance (L := Gitignore.lib)
           Scenario.secretsDisk Cases.fresh).
  vm_compute. reflexivity.
Defined.

Lemma X4_witness :
  validateAccess Scenario.testDisk (Scenario.loaded Scenario.testDisk "/test/path")
    "config.json"
  = validateAccess Scenario.testDisk (Scenario.loaded Scenario.testDisk "/test/path")
      "src/../node_modules/package.json".
Proof.
  apply (X4_same_real_path_same_verdict (L := Gitignore.lib)); vm_compute; reflexivity.
Defined.

Lemma X5_witness :
  (forall p, validateAccess Scenario.secretsDisk Cases.fresh p = true) /\
  (forall command, validateCommand Scenario.secretsDisk Cases.fresh command = None) /\
  (forall paths, filterPaths Scenario.secretsDisk Cases.fresh paths = paths) /\
  getInstructions Cases.fresh = None.
Proof.
  apply (X5_inactive_controller_is_transparent (L := Gitignore.lib)). reflexivity.
Defined.

Lemma X6_witness :
  validateCommand Scenario.secretsDisk
    (Scenario.loaded Scenario.secretsDisk "/workspace") "  CAT   secrets/keys.json "
  = validateCommand Scenario.secretsDisk
      (Scenario.loaded Scenario.secretsDisk "/workspace") "cat secrets/keys.json".
Proof.
  apply (X6_command_verdict_by_tokens (L := Gitignore.lib) _ _ _ _
           "CAT" "cat" ["secrets/keys.json"]); reflexivity.
Defined.

Lemma X7_witness :
  validateAccess Scenario.secretsDisk
    (Scenario.loaded Scenario.secretsDisk "/workspace") "/workspace/secrets/keys.json"
  = false /\
  validateCommand Scenario.secretsDisk
    (Scenario.loaded Scenario.secretsDisk "/workspace")
    "cat -n /workspace/secrets/keys.json" = None.
Proof.
  split; [vm_compute; reflexivity|].
  apply (X7_skipped_arguments_pass (L := Gitignore.lib)).
  intros t Ht. vm_compute in Ht. destruct Ht as [<-|[<-|[]]]; reflexivity.
Defined.

Lemma X8_witness :
  validateAccess Scenario.secretsDisk
    (Scenario.loaded Scenario.secretsDisk "/workspace") "src/app.ts" = true.
Proof.
  apply (X8_passed_command_arguments_accessible (L := Gitignore.lib)
           Scenario.secretsDisk (Scenario.loaded Scenario.secretsDisk "/workspace")
           "head -n 5 src/app.ts README.md" "head" ["-n"; "5"; "src/app.ts"; "README.md"]).
  - reflexivity.
  - reflexivity.
  - vm_compute. reflexivity.
  - right. right. left. reflexivity.
  - reflexivity.
Defined.

Lemma X12_witness :
  armed (run Scenario.running
           (fileEvents (Cases.saveBurst ++ [(OnDidChange, Scenario.rewrittenDisk)])))
  = [2] /\
  loads (step (run Scenario.running
                 (fileEvents (Cases.saveBurst ++ [(OnDidChange, Scenario.rewrittenDisk)])))
           (TimerElapses 2)) = 2.
Proof.
  pose proof (X12_burst_gives_one_reload (L := Gitignore.lib) Scenario.running
                Cases.saveBurst OnDidChange Scenario.rewrittenDisk) as H.
  cbv zeta in H. destruct H as (Harmed & _ & _ & _ & Hloads & _).
  - left. reflexivity.
  - reflexivity.
  - split; [exact Harmed|exact Hloads].
Defined.

Lemma X14_witness :
  loads (run (dispose Cases.pending) Cases.afterDisposal)
  + List.length (armed (run (dispose Cases.pending) Cases.afterDisposal))
  <= loads Cases.pending + List.length (armed Cases.pending).
Proof.
  apply (X14_loads_after_dispose_bounded (L := Gitignore.lib)).
  - intros d Hd. vm_compute in Hd |- *. exact Hd.
  - reflexivity.
Defined.

Lemma X16_witness :
  access Scenario.nestedDisk "/.kilocodeignore" = true /\
  findKilocodeIgnoreFiles Scenario.nestedDisk (cwd Cases.atRoot) = [] /\
  validateAccess Scenario.nestedDisk
    (fst (loadRooIgnore Scenario.nestedDisk Cases.atRoot)) "never" = true.
Proof.
  split; [reflexivity|].
  destruct (X16_root_is_never_visited (L := Gitignore.lib)
              Scenario.nestedDisk Cases.atRoot) as [_ H].
  destruct (H eq_refl) as (Hfiles & _ & Hall).
  split; [exact Hfiles|apply Hall].
Defined.

Lemma X18_witness :
  exists before after,
    Cases.markedCode = before ++ Cases.marker ++ after /\
    String.length before = 18 /\
    StrategyTester.documentText (StrategyTester.createContext Cases.marker Cases.markedCode)
    = before ++ after /\
    (StrategyTester.cursorLine (StrategyTester.createContext Cases.marker Cases.markedCode),
     StrategyTester.cursorCharacter
       (StrategyTester.createContext Cases.marker Cases.markedCode))
    = StrategyTester.endPosition before.
Proof.
  apply (X18_createContext_cursor_at_marker Cases.marker Cases.markedCode).
  - discriminate.
  - reflexivity.
Defined.

Lemma X19_witness :
  queriedPath Scenario.secretsDisk
    (Scenario.loaded Scenario.secretsDisk "/workspace") "src/.." = "" /\
  validateAccess Scenario.secretsDisk
    (Scenario.loaded Scenario.secretsDisk "/workspace") "src/.." = true.
Proof.
  apply (X19_workspace_root_accessible (L := Gitignore.lib) (Laws := Gitignore_laws)).
  reflexivity.
Defined.

(** * The model against the repository's tests

    Expectations of [__tests__/RooIgnoreController.spec.ts] and of the
    security tests, evaluated on the model with the small matcher. *)

(** "should load .kilocodeignore patterns on initialization when file exists" *)
Example test_initialization :
  rooIgnoreContent (Scenario.loaded Scenario.testDisk "/test/path")
  = Some ("# From: .kilocodeignore" ++ newline ++ "node_modules" ++ newline ++ ".git"
            ++ newline ++ "secrets/**" ++ newline ++ "*.log" ++ newline ++ "private/") /\
  map (validateAccess Scenario.testDisk (Scenario.loaded Scenario.testDisk "/test/path"))
      ["node_modules/package.json"; "src/app.ts"; ".git/config"; "secrets/api-keys.json"]
  = [false; true; false; false].
Proof. vm_compute. split; reflexivity. Qed.

(** "should handle absolute paths correctly", "should allow access to paths
    outside cwd", "should block symlinks pointing to ignored files" *)
Example test_validateAccess_paths :
  map (validateAccess Scenario.testDisk (Scenario.loaded Scenario.testDisk "/test/path"))
      ["/test/path/node_modules/package.json"; "/test/path/src/app.ts";
       "../outside-project/file.txt"; "/etc/hosts"; "config.json"]
  = [false; true; true; true; false].
Proof. vm_compute. reflexivity. Qed.

(** "should handle path traversal attempts" *)
Example test_path_traversal :
  map (validateAccess Scenario.testDisk (Scenario.loaded Scenario.testDisk "/test/path"))
      ["secrets/keys.json"; "secrets/../secrets/keys.json";
       "public/../secrets/keys.json"; "public/css/../../secrets/keys.json";
       "public/css/../../public/app.js"]
  = [false; false; false; false; true].
Proof. vm_compute. reflexivity. Qed.

(** "should block file reading commands accessing ignored files", "should
    handle command arguments and flags correctly", "should allow
    non-file-reading commands" *)
Example test_validateCommand :
  map (validateCommand Scenario.testDisk (Scenario.loaded Scenario.testDisk "/test/path"))
      ["cat node_modules/package.json"; "cat -n node_modules/package.json";
       "grep pattern src/app.ts node_modules/index.js";
       "Get-Content -Path secrets/api-keys.json";
       "Select-String -Path secrets/api-keys.json -Pattern key";
       "ls -la node_modules"; "cat src/app.ts"]
  = [Some "node_modules/package.json"; Some "node_modules/package.json";
     Some "node_modules/index.js"; Some "secrets/api-keys.json";
     Some "secrets/api-keys.json"; None; None].
Proof. vm_compute. reflexivity. Qed.

(** "should find multiple .kilocodeignore files from target directory up to
    workspace root", "should maintain correct precedence order" *)
Example test_two_levels :
  findKilocodeIgnoreFiles Scenario.twoLevelDisk "/test/path"
  = ["/test/.kilocodeignore"; "/test/path/.kilocodeignore"] /\
  rooIgnoreContent (Scenario.loaded Scenario.twoLevelDisk "/test/path")
  = Some ("# From: ../.kilocodeignore" ++ newline ++ "node_modules" ++ newline ++ ".git"
            ++ newline ++ "*.log" ++ newline ++ "# From: .kilocodeignore" ++ newline
            ++ "build/" ++ newline ++ "dist/" ++ newline ++ "temp/") /\
  map (validateAccess Scenario.twoLevelDisk
         (Scenario.loaded Scenario.twoLevelDisk "/test/path"))
      ["node_modules/package.json"; "build/output.js"; "src/app.ts"]
  = [false; false; true].
Proof. vm_compute. repeat split. Qed.

(** "should allow all access when .kilocodeignore doesn't exist" *)
Example test_no_ignore_file :
  rooIgnoreContent (Scenario.loaded Scenario.emptyDisk "/test/path") = None /\
  map (validateAccess Scenario.emptyDisk (Scenario.loaded Scenario.emptyDisk "/test/path"))
      ["node_modules/package.json"; "secrets/api-keys.json"; ".git/HEAD"; "app.log"]
  = [true; true; true; true].
Proof. vm_compute. split; reflexivity. Qed.

(** "should debounce reloads to prevent race conditions": three change
    notifications in a row leave one timer armed, and one reload follows. *)
Example test_debounce :
  armed (run Scenario.running
           [FileEvent OnDidChange Scenario.rewrittenDisk;
            FileEvent OnDidChange Scenario.rewrittenDisk;
            FileEvent OnDidChange Scenario.rewrittenDisk]) = [2] /\
  loads (run Scenario.running
           [FileEvent OnDidChange Scenario.rewrittenDisk;
            FileEvent OnDidChange Scenario.rewrittenDisk;
            FileEvent OnDidChange Scenario.rewrittenDisk;
            TimerElapses 0; TimerElapses 1; TimerElapses 2]) = 2.
Proof. vm_compute. split; reflexivity. Qed.
